(** * VariableChoiceSystem: the choice session, its surface and its monitor

    A shallow embedding of [VariableChoiceSystem.js] (RPG Maker MZ plugin).
    The plugin keeps one session object in [$gameSystem._variableChoiceData],
    shows it in a [Window_VariableChoice] owned by the map scene, and checks a
    distance condition once per frame.

    JavaScript numbers that the plugin handles (variable ids, indices, grid
    coordinates, distances) are integers and modelled by [Z].  [null] and
    [undefined] are modelled by [None].  Mutation of the global objects is
    modelled by explicit state passing over the record [Game].

    The plugin subclasses [Window_Command] of the host engine and calls its
    methods ([open], [close], [activate], [deactivate], [select],
    [processOk], [refresh]).  Those methods are transcribed from the host's
    scripts as far as they touch the fields below; sounds, painting and layout
    are left out. *)

From Stdlib Require Import ZArith Lia Bool.
From stdpp Require Import base option list gmap strings.

Local Open Scope Z_scope.

(** ** Data model *)

(** The third argument of [setupVariableChoice]:
    [{eventId: 2, distance: 2, index: 99}]. *)
Record DistanceCondition := mkDistanceCondition {
  eventId : Z;
  distance : Z;
  index : Z
}.

(** The object literal installed by [setupVariableChoice]. *)
Record ChoiceData := mkChoiceData {
  choices : list string;
  variableId : Z;
  isActive : bool;
  forcedIndex : option Z;
  distanceCondition : option DistanceCondition
}.

(** One entry of [Window_Command._list], as pushed by [addCommand]. *)
Record Command := mkCommand {
  name : string;
  symbol : string;
  enabled : bool
}.

(** The fields of the host [Window_Command] object that the plugin reads or
    writes.  [_handlers] keeps only the symbols that have a handler. *)
Record Window := mkWindow {
  active : bool;
  openness : Z;
  _opening : bool;
  _closing : bool;
  _index : Z;
  _list : list Command;
  _handlers : gset string
}.

(** Grid position of the player or of a map event. *)
Record Character := mkCharacter {
  _x : Z;
  _y : Z
}.

(** The globals the plugin touches.
    - [_variableChoiceData] is [$gameSystem._variableChoiceData];
    - [gameVariables] is the content of [$gameVariables];
    - [setValueLog] lists the calls [$gameVariables.setValue(id, v)] made so
      far, oldest first;
    - [timeouts] lists the pending [setTimeout] callbacks, oldest first, each
      with the milliseconds left and the variable it will reset;
    - [_variableChoiceWindow] is [scene._variableChoiceWindow];
    - [gamePlayer] and [gameMap] are [$gamePlayer] and the events of
      [$gameMap], by event id. *)
Record Game := mkGame {
  _variableChoiceData : option ChoiceData;
  gameVariables : gmap Z Z;
  setValueLog : list (Z * Z);
  timeouts : list (Z * Z);
  _variableChoiceWindow : Window;
  gamePlayer : Character;
  gameMap : gmap Z Character
}.

(** *** Field updates *)

Definition set_isActive (b : bool) (d : ChoiceData) : ChoiceData :=
  mkChoiceData (choices d) (variableId d) b (forcedIndex d) (distanceCondition d).

Definition set_forcedIndex (f : option Z) (d : ChoiceData) : ChoiceData :=
  mkChoiceData (choices d) (variableId d) (isActive d) f (distanceCondition d).

Definition set_distanceCondition (c : option DistanceCondition) (d : ChoiceData)
  : ChoiceData :=
  mkChoiceData (choices d) (variableId d) (isActive d) (forcedIndex d) c.

Definition set_active (b : bool) (w : Window) : Window :=
  mkWindow b (openness w) (_opening w) (_closing w) (_index w) (_list w) (_handlers w).

Definition set_openness (o : Z) (w : Window) : Window :=
  mkWindow (active w) o (_opening w) (_closing w) (_index w) (_list w) (_handlers w).

Definition set_opening (b : bool) (w : Window) : Window :=
  mkWindow (active w) (openness w) b (_closing w) (_index w) (_list w) (_handlers w).

Definition set_closing (b : bool) (w : Window) : Window :=
  mkWindow (active w) (openness w) (_opening w) b (_index w) (_list w) (_handlers w).

Definition set_index (i : Z) (w : Window) : Window :=
  mkWindow (active w) (openness w) (_opening w) (_closing w) i (_list w) (_handlers w).

Definition set_list (l : list Command) (w : Window) : Window :=
  mkWindow (active w) (openness w) (_opening w) (_closing w) (_index w) l (_handlers w).

Definition set_data (o : option ChoiceData) (g : Game) : Game :=
  mkGame o (gameVariables g) (setValueLog g) (timeouts g)
         (_variableChoiceWindow g) (gamePlayer g) (gameMap g).

Definition set_timeouts (t : list (Z * Z)) (g : Game) : Game :=
  mkGame (_variableChoiceData g) (gameVariables g) (setValueLog g) t
         (_variableChoiceWindow g) (gamePlayer g) (gameMap g).

Definition set_window (w : Window) (g : Game) : Game :=
  mkGame (_variableChoiceData g) (gameVariables g) (setValueLog g) (timeouts g)
         w (gamePlayer g) (gameMap g).

(** [f] applied to the window of [g], as a method call on the window. *)
Definition on_window (f : Window -> Window) (g : Game) : Game :=
  set_window (f (_variableChoiceWindow g)) g.

(** [f] applied to the session object, when there is one. *)
Definition on_data (f : ChoiceData -> ChoiceData) (g : Game) : Game :=
  set_data (f <$> _variableChoiceData g) g.

(** ** Collaborators of the host *)

(** Modelled from the spec: the variable storage collaborator,
    [set(id, value)] and [get(id) -> int] of section 6.  The host's
    [Game_Variables] is not part of the plugin; every id the plugin writes is
    taken to name a slot of the store.  A read of a slot never written
    gives [0]. *)
Definition setValue (id v : Z) (g : Game) : Game :=
  mkGame (_variableChoiceData g) (<[id := v]> (gameVariables g))
         (setValueLog g ++ [(id, v)]) (timeouts g)
         (_variableChoiceWindow g) (gamePlayer g) (gameMap g).

Definition value (id : Z) (g : Game) : Z :=
  default 0 (gameVariables g !! id).

(** [setTimeout(() => $gameVariables.setValue(id, 0), ms)].  The callback of
    [checkDistanceCondition] reads [choiceData.variableId] when it fires; the
    plugin never assigns that field of a session object, so the id is the one
    at scheduling time. *)
Definition setTimeout (ms id : Z) (g : Game) : Game :=
  set_timeouts (timeouts g ++ [(ms, id)]) g.

(** [ms] milliseconds pass between two frames: the callbacks that are due run
    in the order they were scheduled, the others get closer. *)
Definition elapse (ms : Z) (g : Game) : Game :=
  let due := List.filter (fun t => t.1 <=? ms) (timeouts g) in
  let later := List.filter (fun t => negb (t.1 <=? ms)) (timeouts g) in
  foldl (fun g' t => setValue t.2 0 g')
        (set_timeouts (List.map (fun t => (t.1 - ms, t.2)) later) g) due.

(** *** Window methods inherited from the host (rmmz_core, rmmz_windows) *)

Definition isOpen (w : Window) : bool := 255 <=? openness w.
Definition isClosed (w : Window) : bool := openness w <=? 0.

(** The [openness] setter clamps to [0..255]. *)
Definition clamp (lo hi v : Z) : Z := Z.min (Z.max v lo) hi.

Definition activate (w : Window) : Window := set_active true w.
Definition deactivate (w : Window) : Window := set_active false w.

(** [Window_Base.open]: [if (!this.isOpen()) this._opening = true;
    this._closing = false]. *)
Definition open (w : Window) : Window :=
  set_closing false (if isOpen w then w else set_opening true w).

(** [Window_Base.close]: [if (!this.isClosed()) this._closing = true;
    this._opening = false]. *)
Definition close (w : Window) : Window :=
  set_opening false (if isClosed w then w else set_closing true w).

Definition updateOpen (w : Window) : Window :=
  if _opening w then
    let w' := set_openness (clamp 0 255 (openness w + 32)) w in
    if isOpen w' then set_opening false w' else w'
  else w.

Definition updateClose (w : Window) : Window :=
  if _closing w then
    let w' := set_openness (clamp 0 255 (openness w - 32)) w in
    if isClosed w' then set_closing false w' else w'
  else w.

(** [Window_Selectable.select] stores the index as given. *)
Definition select (i : Z) (w : Window) : Window := set_index i w.

(** [Window_Command.currentData]:
    [this.index() >= 0 ? this._list[this.index()] : null]. *)
Definition currentData (w : Window) : option Command :=
  if 0 <=? _index w then _list w !! Z.to_nat (_index w) else None.

(** [Window_Command.isCurrentItemEnabled]. *)
Definition isCurrentItemEnabled (w : Window) : bool :=
  match currentData w with
  | Some c => enabled c
  | None => false
  end.

Definition isHandled (s : string) (w : Window) : bool :=
  bool_decide (s ∈ _handlers w).

Definition isCancelEnabled (w : Window) : bool := isHandled "cancel" w.

(** [isOpenAndActive]; the plugin never hides the window. *)
Definition isOpenAndActive (w : Window) : bool := isOpen w && active w.

(** ** The plugin: [Window_VariableChoice] *)

(** [$gameSystem._variableChoiceData?.choices || []]. *)
Definition choiceData_choices (g : Game) : list string :=
  match _variableChoiceData g with
  | Some d => choices d
  | None => []
  end.

(** [makeCommandList]: one enabled command with symbol ['select'] per
    choice. *)
Definition makeCommandList (g : Game) : list Command :=
  (fun c => mkCommand c "select" true) <$> choiceData_choices g.

(** [Window_Command.refresh]: clear the command list, make it again, paint. *)
Definition refresh (g : Game) : Game :=
  on_window (set_list (makeCommandList g)) g.

(** [adjustWindowSize]: returns at once for an empty list; otherwise moves and
    resizes the window (layout, not modelled) and refreshes it. *)
Definition adjustWindowSize (g : Game) : Game :=
  match choiceData_choices g with
  | [] => g
  | _ :: _ => refresh g
  end.

(** [callOkHandler], lines 123-136. *)
Definition callOkHandler (g : Game) : Game :=
  let selectedIndex := _index (_variableChoiceWindow g) in
  let targetVariableId := variableId <$> _variableChoiceData g in
  let g1 :=
    match targetVariableId with
    | Some id =>
        if 0 <? id
        then setTimeout 100 id (setValue id (selectedIndex + 1) g)
        else g
    | None => g
    end in
  let g2 := on_window deactivate g1 in
  let g3 := on_window close g2 in
  on_data (set_isActive false) g3.

(** [Window_Selectable.processOk] of the host: the handler runs only when the
    highlighted entry exists and is enabled; otherwise the buzzer plays and
    nothing changes. *)
Definition processOk (g : Game) : Game :=
  if isCurrentItemEnabled (_variableChoiceWindow g)
  then callOkHandler (on_window deactivate g)
  else g.

(** [processCancel], lines 138-141: the body is empty. *)
Definition processCancel (g : Game) : Game := g.

(** What the player did since the last frame, as far as confirming and
    cancelling go. *)
Inductive Input :=
  | NoInput
  | OkTriggered
  | CancelTriggered
  | TouchCancelled.

(** [Window_Selectable.processHandling] of the host. [Window_Command] always
    enables ok; cancel is enabled when a handler for it is set. *)
Definition processHandling (i : Input) (g : Game) : Game :=
  if isOpenAndActive (_variableChoiceWindow g) then
    match i with
    | OkTriggered => processOk g
    | CancelTriggered =>
        if isCancelEnabled (_variableChoiceWindow g) then processCancel g else g
    | _ => g
    end
  else g.

(** [Window_Selectable.processTouch] of the host, for a right click or a
    two-finger tap: [onTouchCancel]. *)
Definition processTouch (i : Input) (g : Game) : Game :=
  if isOpenAndActive (_variableChoiceWindow g) then
    match i with
    | TouchCancelled =>
        if isCancelEnabled (_variableChoiceWindow g) then processCancel g else g
    | _ => g
    end
  else g.

(** [super.update()]: input handling, then [Window_Base.update] moves the
    openness. *)
Definition Window_Selectable_update (i : Input) (g : Game) : Game :=
  on_window updateClose (on_window updateOpen (processTouch i (processHandling i g))).

(** [$gameSystem._variableChoiceData?.forcedIndex], [None] for [null] and
    for [undefined]. *)
Definition choiceData_forcedIndex (g : Game) : option Z :=
  _variableChoiceData g ≫= forcedIndex.

(** [Window_VariableChoice.update], lines 112-121. *)
Definition Window_VariableChoice_update (i : Input) (g : Game) : Game :=
  let g1 := Window_Selectable_update i g in
  if active (_variableChoiceWindow g1) then
    match choiceData_forcedIndex g1 with
    | Some selectedIndex =>
        let g2 := on_window (select selectedIndex) g1 in
        let g3 := processOk g2 in
        on_data (set_forcedIndex None) g3
    | None => g1
    end
  else g1.

(** ** The plugin: [Scene_Map] *)

(** [checkDistanceCondition], lines 187-229.  [None] is the [TypeError] of
    reading a property of [undefined] or [null]; the caller guards against
    it. *)
Definition checkDistanceCondition (g : Game) : option Game :=
  choiceData ← _variableChoiceData g;
  cond ← distanceCondition choiceData;
  match gameMap g !! eventId cond with
  | None => Some g
  | Some targetEvent =>
      let distanceX := Z.abs (_x (gamePlayer g) - _x targetEvent) in
      let distanceY := Z.abs (_y (gamePlayer g) - _y targetEvent) in
      let calculatedDistance := distanceX + distanceY in
      if calculatedDistance <=? distance cond then
        let g1 :=
          if 0 <? variableId choiceData
          then setTimeout 100 (variableId choiceData)
                 (setValue (variableId choiceData) (index cond) g)
          else g in
        let g2 :=
          if active (_variableChoiceWindow g1)
          then on_window close (on_window deactivate g1)
          else g1 in
        Some (on_data (set_distanceCondition None) (on_data (set_isActive false) g2))
      else Some g
  end.

(** JavaScript truthiness of a number or [null]: [0] is falsy. *)
Definition truthy (o : option Z) : bool :=
  match o with
  | Some k => negb (k =? 0)
  | None => false
  end.

(** [choiceData?.isActive]. *)
Definition choiceData_isActive (g : Game) : bool :=
  match _variableChoiceData g with
  | Some d => isActive d
  | None => false
  end.

(** The body of the first [if] of [updateVariableChoice], lines 162-178. *)
Definition activateChoiceWindow (g : Game) : Game :=
  match _variableChoiceData g with
  | None => g
  | Some choiceData =>
      let g1 :=
        if 0 <? variableId choiceData
        then setValue (variableId choiceData) 0 g
        else g in
      let g2 := adjustWindowSize (refresh g1) in
      let g3 := on_window (select (-1)) (on_window activate (on_window open g2)) in
      match forcedIndex choiceData with
      | Some k =>
          on_data (set_forcedIndex None)
                  (processOk (on_window (select k) g3))
      | None => g3
      end
  end.

(** The guard of the second [if], line 182:
    [choiceData?.isActive && choiceData.distanceCondition &&
     !choiceData.forcedIndex]. *)
Definition distanceCheckDue (g : Game) : bool :=
  match _variableChoiceData g with
  | Some d =>
      isActive d && bool_decide (is_Some (distanceCondition d))
      && negb (truthy (forcedIndex d))
  | None => false
  end.

(** [updateVariableChoice], lines 157-185.  The scene has created its window
    (see [createAllWindows] below), so the test [choiceWindow && ...] is the
    test on the window's fields. *)
Definition updateVariableChoice (g : Game) : option Game :=
  let choiceWindow := _variableChoiceWindow g in
  let g1 :=
    if choiceData_isActive g && (openness choiceWindow =? 0)
       && negb (active choiceWindow)
    then activateChoiceWindow g
    else g in
  if distanceCheckDue g1 then checkDistanceCondition g1 else Some g1.

(** One frame of the map scene as far as the plugin goes: the scene updates
    its windows, then runs [updateVariableChoice] (lines 151-155). *)
Definition Scene_Map_update (i : Input) (g : Game) : option Game :=
  updateVariableChoice (Window_VariableChoice_update i g).

(** ** The plugin: [Game_System] *)

(** [setupVariableChoice], lines 231-249. *)
Definition setupVariableChoice
    (choices : list string) (variableId : Z)
    (distanceCondition : option DistanceCondition) (g : Game) : Game :=
  if choiceData_isActive g then g
  else
    let g1 := if 0 <? variableId then setValue variableId (-1) g else g in
    set_data (Some (mkChoiceData choices variableId true None distanceCondition)) g1.

(** ** Scenes, scripts and runs *)

(** [Window_VariableChoice.initialize], lines 52-60, after the constructor of
    [Window_Command]: the list is made from the session of the moment, entry
    [0] is selected, and the window ends inactive and fully closed. *)
Definition Window_VariableChoice_initialize (g : Game) : Window :=
  mkWindow false 0 false false 0 (makeCommandList g) ∅.

(** [createAllWindows], lines 144-149.  It runs before the first
    [Scene_Map.update], so [updateVariableChoice] always finds the window and
    its test [choiceWindow && ...] is on a window that exists. *)
Definition createAllWindows (g : Game) : Game :=
  set_window (Window_VariableChoice_initialize g) g.

(** A new game on a map: no session object yet, nothing written, nothing
    pending. *)
Definition newGame (player : Character) (events : gmap Z Character) : Game :=
  createAllWindows
    (mkGame None ∅ [] [] (mkWindow false 0 false false 0 [] ∅) player events).

(** Modelled from the spec: [ForceIndex(index)] of section 4.1, which sets
    [forcedIndex] on the session.  The plugin has no function for it; a script
    assigns the field of [$gameSystem._variableChoiceData]. *)
Definition ForceIndex (k : Z) (g : Game) : Game :=
  on_data (set_forcedIndex (Some k)) g.

(** A script or the map moves an event. *)
Definition moveEvent (id : Z) (c : Character) (g : Game) : Game :=
  mkGame (_variableChoiceData g) (gameVariables g) (setValueLog g) (timeouts g)
         (_variableChoiceWindow g) (gamePlayer g) (<[id := c]> (gameMap g)).

(** Consecutive frames, one input each. *)
Fixpoint frames (inputs : list Input) (g : Game) : option Game :=
  match inputs with
  | [] => Some g
  | i :: rest => Scene_Map_update i g ≫= frames rest
  end.

(** What can happen to the game.  A frame of the map scene is
    [UpdateWindows], then the scripts of the map ([Setup], [Force], the moves),
    then [UpdateVariableChoice]; the callbacks of [setTimeout] run between
    frames ([Elapse]). *)
Inductive Event :=
  | Setup (cs : list string) (id : Z) (cond : option DistanceCondition)
  | Force (k : Z)
  | MoveEvent (id : Z) (c : Character)
  | MovePlayer (c : Character)
  | UpdateWindows (i : Input)
  | UpdateVariableChoice
  | Elapse (ms : Z).

Definition movePlayer (c : Character) (g : Game) : Game :=
  mkGame (_variableChoiceData g) (gameVariables g) (setValueLog g) (timeouts g)
         (_variableChoiceWindow g) c (gameMap g).

Definition step (e : Event) (g : Game) : option Game :=
  match e with
  | Setup cs id cond => Some (setupVariableChoice cs id cond g)
  | Force k => Some (ForceIndex k g)
  | MoveEvent id c => Some (moveEvent id c g)
  | MovePlayer c => Some (movePlayer c g)
  | UpdateWindows i => Some (Window_VariableChoice_update i g)
  | UpdateVariableChoice => updateVariableChoice g
  | Elapse ms => Some (elapse ms g)
  end.

Fixpoint run (es : list Event) (g : Game) : option Game :=
  match es with
  | [] => Some g
  | e :: rest => step e g ≫= run rest
  end.

(** The states a game can be in. *)
Inductive reachable : Game -> Prop :=
  | reachable_new (player : Character) (events : gmap Z Character) :
      reachable (newGame player events)
  | reachable_step (e : Event) (g g' : Game) :
      reachable g -> step e g = Some g' -> reachable g'.

(** The window is closed and inactive: the test of line 161 on the window. *)
Definition readyToActivate (w : Window) : bool :=
  (openness w =? 0) && negb (active w).

(** The invariant of the runs: the window is active only while the session
    is. *)
Definition window_follows_session (g : Game) : Prop :=
  active (_variableChoiceWindow g) = true -> choiceData_isActive g = true.

(** ** Concrete runs used below *)

Definition origin : Character := mkCharacter 0 0.

(** The session of the help text: three choices into variable 10. *)
Definition game_abc : Game :=
  setupVariableChoice ["A"; "B"; "C"] 10 None (newGame origin ∅).

(** The same session one frame later: the window is active and opening. *)
Definition game_abc_shown : option Game := Scene_Map_update NoInput game_abc.

(** The session of section 8 with a distance trigger; event 2 is far away. *)
Definition game_xy : Game :=
  setupVariableChoice ["X"; "Y"] 20 (Some (mkDistanceCondition 2 2 99))
    (newGame origin {[ 2 := mkCharacter 7 7 ]}).

(** A session on variable 5, and the state after the call of
    [updateVariableChoice] in its first frame. *)
Definition game_five : Game :=
  setupVariableChoice ["A"; "B"] 5 None (newGame origin ∅).

Definition game_five_shown : Game :=
  from_option id game_five (updateVariableChoice game_five).

(** [game_xy] in its second frame, at the call of [updateVariableChoice]:
    the first frame has activated the window, the window has had its second
    [update], and during the map's update of this frame event 2 has walked
    next to the player and a script has forced index [k]. *)
Definition game_xy_forced (k : Z) : option Game :=
  (fun g => ForceIndex k (moveEvent 2 (mkCharacter 1 1)
                            (Window_VariableChoice_update NoInput g)))
    <$> Scene_Map_update NoInput game_xy.

(** The events that lead to [game_xy_forced k]. *)
Definition schedule_xy_forced (k : Z) : list Event :=
  [ Setup ["X"; "Y"] 20 (Some (mkDistanceCondition 2 2 99));
    UpdateWindows NoInput; UpdateVariableChoice;
    UpdateWindows NoInput; MoveEvent 2 (mkCharacter 1 1); Force k ].

(** The session of section 8 on a map where only event 3 exists. *)
Definition game_xy_ghost : Game :=
  setupVariableChoice ["X"; "Y"] 20 (Some (mkDistanceCondition 2 2 99))
    (newGame origin {[ 3 := mkCharacter 1 0 ]}).

(** [game_xy] once event 2 stands one step right and one step down of the
    player. *)
Definition game_xy_near : Game := moveEvent 2 (mkCharacter 1 1) game_xy.

(** [game_abc] after its first frame, with the cursor on the second entry. *)
Definition game_abc_pick1 : Game :=
  from_option (on_window (select 1)) game_abc game_abc_shown.

(** A session whose forced index is set before the first frame. *)
Definition game_abc_forced (k : Z) : Game := ForceIndex k game_abc.

(** ** Layout of the choice window *)

(** Position and size of a window, in pixels. *)
Record Rectangle := mkRectangle {
  x : Z;
  y : Z;
  width : Z;
  height : Z
}.

(** [choice.length]; a character of the label stands for one code unit. *)
Definition textLength (choice : string) : Z := Z.of_nat (String.length choice).

(** [Math.max(...choiceData.map(choice => choice.length))] on a list that is
    not empty. *)
Definition maxTextLength (choice : string) (rest : list string) : Z :=
  foldl (fun m c => Z.max m (textLength c)) (textLength choice) rest.

(** Line 84, with the constants of lines 80-83. *)
Definition calculatedWidth (maxLength : Z) : Z :=
  Z.min (Z.max 200 (maxLength * 30 + 20)) 450 - 16.

(** Line 88. *)
Definition calculatedHeight (count : nat) : Z := Z.of_nat count * 48 + 20.

(** The geometry part of [adjustWindowSize], lines 72-106: the rectangle of
    the choice window after the call.  [messageWindow] is
    [SceneManager._scene._messageWindow] when the scene has one,
    [graphicsHeight] is [Graphics.height], [r] is the rectangle before the
    call, kept when there is nothing to list. *)
Definition adjustWindowSize_rect
    (g : Game) (messageWindow : option Rectangle) (graphicsHeight : Z)
    (r : Rectangle) : Rectangle :=
  match choiceData_choices g with
  | [] => r
  | choice :: rest =>
      let width' := calculatedWidth (maxTextLength choice rest) in
      let height' := calculatedHeight (length (choice :: rest)) in
      let messageWindowX := from_option x 0 messageWindow in
      let messageWindowWidth := from_option width 816 messageWindow in
      let rightX := messageWindowX + messageWindowWidth - width' in
      let windowX := Z.max 0 rightX in
      let messageWindowY := from_option y graphicsHeight messageWindow in
      let windowY := messageWindowY - height' in
      mkRectangle windowX windowY width' height'
  end.

(** ** What a step may write *)

(** [$gameSystem._variableChoiceData?.variableId]. *)
Definition choiceData_variableId (g : Game) : option Z :=
  variableId <$> _variableChoiceData g.

(** [id] is the variable of the session of [g], and a slot of the store. *)
Definition destination (g : Game) (id : Z) : Prop :=
  choiceData_variableId g = Some id /\ 0 < id.

(** From [g] to [g'] the session keeps its variable, and whatever was written
    or scheduled went to that variable: the log and the pending resets of [g]
    are extended by writes to it and by resets of it in 100 ms. *)
Definition writes_to_destination (g g' : Game) : Prop :=
  choiceData_variableId g' = choiceData_variableId g
  /\ exists (ws ts : list (Z * Z)),
       setValueLog g' = setValueLog g ++ ws
       /\ timeouts g' = timeouts g ++ ts
       /\ Forall (fun w => destination g w.1) ws
       /\ Forall (fun t => t.1 = 100 /\ destination g t.2) ts.

(** Every write made so far and every pending reset is on a positive id. *)
Definition positive_ids (g : Game) : Prop :=
  Forall (fun w => 0 < w.1) (setValueLog g)
  /\ Forall (fun t => 0 < t.2) (timeouts g).

(** The scripts of a run that start sessions only for show, with no variable
    to write. *)
Definition for_show (e : Event) : bool :=
  match e with
  | Setup _ id _ => id <=? 0
  | _ => true
  end.

(** The list of the window is the one [refresh] makes for [cs]. *)
Definition lists (cs : list string) (w : Window) : Prop :=
  _list w = (fun c => mkCommand c "select" true) <$> cs.

(** ** Concrete runs for the further properties *)

(** A session with labels of 6, 6 and 8 characters, and the same labels in
    another order. *)
Definition game_battle : Game :=
  setupVariableChoice ["Attack"; "Defend"; "Run away"] 20 None
    (newGame origin ∅).

Definition game_battle_reordered : Game :=
  setupVariableChoice ["Run away"; "Attack"; "Defend"] 20 None
    (newGame origin ∅).

(** A message window along the lower edge of an 816 x 624 screen. *)
Definition messageWindow_bottom : Rectangle := mkRectangle 4 444 808 180.

(** A session with no variable to write, its first frame, and a run of it
    with a forced index and time passing. *)
Definition game_show : Game :=
  setupVariableChoice ["Yes"; "No"] 0 None (newGame origin ∅).

Definition game_show_shown : Game :=
  from_option id game_show (Scene_Map_update NoInput game_show).

Definition schedule_show : list Event :=
  [ Setup ["Yes"; "No"] 0 None;
    UpdateWindows NoInput; UpdateVariableChoice;
    Force 1;
    UpdateWindows NoInput; UpdateVariableChoice;
    Elapse 100 ].

Definition game_show_end : Game :=
  from_option id game_show (run schedule_show (newGame origin ∅)).


Definition game_xy_forced_one : Game :=
  from_option id game_xy (game_xy_forced 1).

(** [game_abc] after its first frame: the window is active and lists the
    three choices. *)
Definition game_abc_open : Game := from_option id game_abc game_abc_shown.

(** [game_xy] with its window on display (three frames in, the window active
    and a quarter open) when event 2 comes next to the player. *)
Definition game_xy_open_near : Game :=
  moveEvent 2 (mkCharacter 1 1)
    (from_option id game_xy (frames [NoInput; NoInput; NoInput] game_xy)).


(** [game_xy] with its window fully open and the cursor on the second
    entry, when a script forces index 0. *)
Definition game_xy_picked_forced : Game :=
  ForceIndex 0
    (on_window (select 1)
       (from_option id game_xy (frames (replicate 9 NoInput) game_xy))).

(** * Properties *)

(** ** Reading the state after an update *)

Lemma choiceData_isActive_Some (g : Game) (d : ChoiceData) :
  _variableChoiceData g = Some d -> choiceData_isActive g = isActive d.
Proof. unfold choiceData_isActive. by intros ->. Qed.

Lemma value_setValue_eq (id v : Z) (g : Game) : value id (setValue id v g) = v.
Proof. unfold value, setValue; simpl. by rewrite lookup_insert_eq. Qed.

Lemma value_setValue_ne (id id' v : Z) (g : Game) :
  id <> id' -> value id' (setValue id v g) = value id' g.
Proof. intros Hne. unfold value, setValue; simpl. by rewrite lookup_insert_ne. Qed.

(** ** Starting a session *)

(** C1. When a session is active, [setupVariableChoice] with any arguments
    returns the state it was given: the session object (choices, variable,
    forced index, distance condition) is the one that was there, no call of
    [setValue] is added to the log, and the variables are as before. *)
Theorem setupVariableChoice_active_noop
    (cs : list string) (id : Z) (cond : option DistanceCondition) (g : Game) :
  choiceData_isActive g = true ->
  setupVariableChoice cs id cond g = g
  /\ _variableChoiceData (setupVariableChoice cs id cond g) = _variableChoiceData g
  /\ setValueLog (setupVariableChoice cs id cond g) = setValueLog g
  /\ gameVariables (setupVariableChoice cs id cond g) = gameVariables g.
Proof.
  intros Hact. unfold setupVariableChoice. by rewrite Hact.
Qed.

Lemma setupVariableChoice_active_noop_witness :
  setupVariableChoice ["P"; "Q"] 10 (Some (mkDistanceCondition 3 1 7)) game_abc
    = game_abc
  /\ value 10 (setupVariableChoice ["P"; "Q"] 10 None game_abc) = -1.
Proof.
  split.
  - apply (setupVariableChoice_active_noop
             ["P"; "Q"] 10 (Some (mkDistanceCondition 3 1 7)) game_abc).
    reflexivity.
  - reflexivity.
Defined.

(** C10. With no session object at all, [setupVariableChoice] installs a new
    active session with no forced index, after writing [-1] when the variable
    id is positive; the result is the one obtained from any state that differs
    only by holding a session that is not active. *)
Theorem setupVariableChoice_undefined_slot
    (cs : list string) (id : Z) (cond : option DistanceCondition) (g : Game) :
  _variableChoiceData g = None ->
  setupVariableChoice cs id cond g
    = set_data (Some (mkChoiceData cs id true None cond))
               (if 0 <? id then setValue id (-1) g else g)
  /\ choiceData_isActive (setupVariableChoice cs id cond g) = true
  /\ choiceData_forcedIndex (setupVariableChoice cs id cond g) = None
  /\ forall idle : ChoiceData,
       isActive idle = false ->
       setupVariableChoice cs id cond (set_data (Some idle) g)
         = setupVariableChoice cs id cond g.
Proof.
  intros Hnone. unfold setupVariableChoice, choiceData_isActive.
  rewrite Hnone. repeat split.
  intros idle Hidle. simpl. rewrite Hidle.
  destruct (0 <? id); reflexivity.
Qed.

Lemma setupVariableChoice_undefined_slot_witness :
  choiceData_isActive
    (setupVariableChoice ["A"; "B"; "C"] 10 None (newGame origin ∅)) = true
  /\ setupVariableChoice ["A"; "B"; "C"] 10 None
       (set_data (Some (mkChoiceData ["Z"] 3 false (Some 1) None))
                 (newGame origin ∅))
     = game_abc.
Proof.
  pose proof (setupVariableChoice_undefined_slot
                ["A"; "B"; "C"] 10 None (newGame origin ∅) eq_refl)
    as (_ & Hact & _ & Hidle).
  split; [exact Hact|].
  apply (Hidle (mkChoiceData ["Z"] 3 false (Some 1) None)). reflexivity.
Defined.

(** ** The distance monitor *)

(** [checkDistanceCondition] once the session, its condition and the event
    are found: the comparison of line 208 on the Manhattan distance of lines
    198-205, and the body of its [if]. *)
Lemma checkDistanceCondition_unfold (g : Game) (d : ChoiceData)
    (c : DistanceCondition) (e : Character) :
  _variableChoiceData g = Some d ->
  distanceCondition d = Some c ->
  gameMap g !! eventId c = Some e ->
  checkDistanceCondition g =
    if Z.abs (_x (gamePlayer g) - _x e) + Z.abs (_y (gamePlayer g) - _y e)
         <=? distance c
    then
      let g1 :=
        if 0 <? variableId d
        then setTimeout 100 (variableId d) (setValue (variableId d) (index c) g)
        else g in
      let g2 :=
        if active (_variableChoiceWindow g1)
        then on_window close (on_window deactivate g1)
        else g1 in
      Some (on_data (set_distanceCondition None) (on_data (set_isActive false) g2))
    else Some g.
Proof.
  intros Hd Hc He. unfold checkDistanceCondition.
  rewrite Hd; simpl. rewrite Hc; simpl. by rewrite He.
Qed.

(** C8. When the event id of the distance condition names no event of the
    map, [checkDistanceCondition] returns the state it was given: nothing is
    written, the session stays active and its condition stays in place.  A
    frame whose window is not waiting to be activated is then a no-op of
    [updateVariableChoice] as a whole. *)
Theorem checkDistanceCondition_missing_event
    (g : Game) (d : ChoiceData) (c : DistanceCondition) :
  _variableChoiceData g = Some d ->
  isActive d = true ->
  distanceCondition d = Some c ->
  gameMap g !! eventId c = None ->
  (exists g', checkDistanceCondition g = Some g'
     /\ g' = g
     /\ setValueLog g' = setValueLog g
     /\ gameVariables g' = gameVariables g
     /\ choiceData_isActive g' = true
     /\ (_variableChoiceData g' ≫= distanceCondition) = Some c)
  /\ (readyToActivate (_variableChoiceWindow g) = false ->
      updateVariableChoice g = Some g).
Proof.
  intros Hd Hact Hc He.
  assert (Hchk : checkDistanceCondition g = Some g).
  { unfold checkDistanceCondition. rewrite Hd; simpl. rewrite Hc; simpl.
    by rewrite He. }
  split.
  - exists g. unfold choiceData_isActive. rewrite Hd; simpl. by rewrite Hc.
  - intros Hready. unfold updateVariableChoice.
    unfold readyToActivate in Hready.
    rewrite <- andb_assoc, Hready, andb_false_r.
    by destruct (distanceCheckDue g).
Qed.

Lemma checkDistanceCondition_missing_event_witness :
  checkDistanceCondition game_xy_ghost = Some game_xy_ghost
  /\ value 20 game_xy_ghost = -1.
Proof.
  split; [|reflexivity].
  edestruct (checkDistanceCondition_missing_event game_xy_ghost)
    as [(g' & Hrun & Hsame & _) _].
  - reflexivity.
  - reflexivity.
  - reflexivity.
  - vm_compute. reflexivity.
  - by rewrite Hrun, Hsame.
Defined.

(** ** Delayed resets *)

Lemma value_foldl_reset_other (id : Z) (l : list (Z * Z)) (g : Game) :
  (forall t, In t l -> t.2 <> id) ->
  value id (foldl (fun g' t => setValue t.2 0 g') g l) = value id g.
Proof.
  revert g. induction l as [|t l IH]; intros g Hl; simpl; [done|].
  rewrite IH.
  - apply value_setValue_ne, Hl. by left.
  - intros t' Ht'. apply Hl. by right.
Qed.

(** A reset that is due has run once [elapse] returns, and being the youngest
    callback it is the last to write. *)
Lemma elapse_youngest_due (ms t id : Z) (ts : list (Z * Z)) (g : Game) :
  timeouts g = ts ++ [(t, id)] ->
  t <= ms ->
  value id (elapse ms g) = 0.
Proof.
  intros Hts Hle. unfold elapse. rewrite Hts, !List.filter_app. simpl.
  assert (Hdue : (t <=? ms) = true) by by apply Z.leb_le.
  rewrite Hdue. simpl. rewrite foldl_app. simpl.
  apply value_setValue_eq.
Qed.

(** No reset of [id] is due within [ms]: the variable keeps its value. *)
Lemma elapse_none_due (ms id : Z) (g : Game) :
  (forall t, In t (timeouts g) -> t.2 = id -> ms < t.1) ->
  value id (elapse ms g) = value id g.
Proof.
  intros Hnone. unfold elapse. rewrite value_foldl_reset_other; [done|].
  intros t Ht Hid. apply List.filter_In in Ht as [Hin Hdue].
  apply Z.leb_le in Hdue. specialize (Hnone t Hin Hid). lia.
Qed.

(** In a frame with no forced index on a window that is not waiting to be
    activated, [updateVariableChoice] is the distance check alone. *)
Lemma updateVariableChoice_distance_only (g : Game) (d : ChoiceData) :
  _variableChoiceData g = Some d ->
  isActive d = true ->
  is_Some (distanceCondition d) ->
  truthy (forcedIndex d) = false ->
  readyToActivate (_variableChoiceWindow g) = false ->
  updateVariableChoice g = checkDistanceCondition g.
Proof.
  intros Hd Hact Hc Hf Hready. unfold updateVariableChoice.
  unfold readyToActivate in Hready.
  rewrite <- andb_assoc, Hready, andb_false_r.
  unfold distanceCheckDue. rewrite Hd, Hact, Hf.
  by rewrite bool_decide_eq_true_2.
Qed.

(** The body of the [if] of line 208, field by field. *)
Lemma checkDistanceCondition_fires
    (g : Game) (d : ChoiceData) (c : DistanceCondition) (e : Character) :
  _variableChoiceData g = Some d ->
  isActive d = true ->
  distanceCondition d = Some c ->
  gameMap g !! eventId c = Some e ->
  Z.abs (_x (gamePlayer g) - _x e) + Z.abs (_y (gamePlayer g) - _y e)
    <= distance c ->
  exists g', checkDistanceCondition g = Some g'
    /\ _variableChoiceData g'
       = Some (mkChoiceData (choices d) (variableId d) false (forcedIndex d) None)
    /\ (0 < variableId d ->
          gameVariables g' = <[variableId d := index c]> (gameVariables g)
          /\ setValueLog g' = setValueLog g ++ [(variableId d, index c)]
          /\ timeouts g' = timeouts g ++ [(100, variableId d)]
          /\ value (variableId d) g' = index c
          /\ value (variableId d) (elapse 100 g') = 0)
    /\ (variableId d <= 0 ->
          gameVariables g' = gameVariables g
          /\ setValueLog g' = setValueLog g
          /\ timeouts g' = timeouts g)
    /\ _variableChoiceWindow g'
       = (if active (_variableChoiceWindow g)
          then close (deactivate (_variableChoiceWindow g))
          else _variableChoiceWindow g)
    /\ active (_variableChoiceWindow g') = false.
Proof.
  intros Hd Hact Hc He Hdist.
  rewrite (checkDistanceCondition_unfold g d c e Hd Hc He).
  apply Z.leb_le in Hdist. rewrite Hdist. cbv zeta.
  destruct g as [dat vars log ts w pl mp]; simpl in *; subst dat.
  destruct d as [cs id act fi dc]; simpl in *.
  eexists. split; [reflexivity|].
  destruct (0 <? id) eqn:Hid, (active w) eqn:Ha; simpl; rewrite ?Ha; simpl;
    [apply Z.ltb_lt in Hid | apply Z.ltb_lt in Hid
    | apply Z.ltb_ge in Hid | apply Z.ltb_ge in Hid];
    repeat split; try lia; try done;
    try (apply (value_setValue_eq id (index c)));
    try (by apply (elapse_youngest_due 100 100 id ts); [|lia]);
    by destruct (isClosed (deactivate w)).
Qed.

(** C3. When [checkDistanceCondition] runs on an active session whose event
    exists within the Manhattan distance of the condition, it writes the
    condition's [index] as it is (not [index + 1]) when the variable id is
    positive and schedules the reset to [0] after 100 ms, sets [isActive] to
    [false] and clears the condition.  A window that is active is deactivated
    and closed: it stops opening, and starts closing unless it is fully
    closed already; a window that is not active is left as it is.  In a frame
    with no forced index pending, on a window that is not waiting to be
    activated, this is what [updateVariableChoice] as a whole does. *)
Theorem checkDistanceCondition_within_distance
    (g : Game) (d : ChoiceData) (c : DistanceCondition) (e : Character) :
  _variableChoiceData g = Some d ->
  isActive d = true ->
  distanceCondition d = Some c ->
  gameMap g !! eventId c = Some e ->
  Z.abs (_x (gamePlayer g) - _x e) + Z.abs (_y (gamePlayer g) - _y e)
    <= distance c ->
  exists g', checkDistanceCondition g = Some g'
    /\ _variableChoiceData g'
       = Some (mkChoiceData (choices d) (variableId d) false (forcedIndex d) None)
    /\ (0 < variableId d ->
          gameVariables g' = <[variableId d := index c]> (gameVariables g)
          /\ setValueLog g' = setValueLog g ++ [(variableId d, index c)]
          /\ timeouts g' = timeouts g ++ [(100, variableId d)]
          /\ value (variableId d) g' = index c
          /\ value (variableId d) (elapse 100 g') = 0)
    /\ (variableId d <= 0 ->
          gameVariables g' = gameVariables g
          /\ setValueLog g' = setValueLog g
          /\ timeouts g' = timeouts g)
    /\ _variableChoiceWindow g'
       = (if active (_variableChoiceWindow g)
          then close (deactivate (_variableChoiceWindow g))
          else _variableChoiceWindow g)
    /\ active (_variableChoiceWindow g') = false
    /\ (active (_variableChoiceWindow g) = true ->
        _opening (_variableChoiceWindow g') = false
        /\ openness (_variableChoiceWindow g')
           = openness (_variableChoiceWindow g)
        /\ (0 < openness (_variableChoiceWindow g) ->
            _closing (_variableChoiceWindow g') = true)
        /\ (openness (_variableChoiceWindow g) <= 0 ->
            _closing (_variableChoiceWindow g')
            = _closing (_variableChoiceWindow g)))
    /\ (active (_variableChoiceWindow g) = false ->
        _variableChoiceWindow g' = _variableChoiceWindow g)
    /\ (truthy (forcedIndex d) = false ->
        readyToActivate (_variableChoiceWindow g) = false ->
        updateVariableChoice g = Some g').
Proof.
  intros Hd Hact Hc He Hdist.
  destruct (checkDistanceCondition_fires g d c e Hd Hact Hc He Hdist)
    as (g' & Hrun & Hdata & Hpos & Hnonpos & Hw & Ha').
  exists g'. do 6 (split; [done|]).
  split; [|split].
  - intros Ha. rewrite Hw, Ha.
    destruct (_variableChoiceWindow g) as [a o op cl ix l h].
    unfold close, isClosed, deactivate. cbn [set_active openness].
    destruct (o <=? 0) eqn:Ho; cbn;
      [apply Z.leb_le in Ho | apply Z.leb_gt in Ho];
      repeat split; try done; intros; lia.
  - intros Ha. by rewrite Hw, Ha.
  - intros Hf Hready.
    rewrite (updateVariableChoice_distance_only g d Hd Hact);
      [exact Hrun | rewrite Hc; by eexists | exact Hf | exact Hready].
Qed.

Lemma checkDistanceCondition_within_distance_witness :
  exists g', checkDistanceCondition game_xy_open_near = Some g'
    /\ updateVariableChoice game_xy_open_near = Some g'
    /\ value 20 g' = 99
    /\ choiceData_isActive g' = false
    /\ active (_variableChoiceWindow g') = false
    /\ _opening (_variableChoiceWindow g') = false
    /\ _closing (_variableChoiceWindow g') = true.
Proof.
  destruct (checkDistanceCondition_within_distance game_xy_open_near
              (mkChoiceData ["X"; "Y"] 20 true None
                 (Some (mkDistanceCondition 2 2 99)))
              (mkDistanceCondition 2 2 99) (mkCharacter 1 1))
    as (g' & Hrun & Hdata & Hpos & _ & _ & Ha & Hshown & _ & Hframe).
  - vm_compute. reflexivity.
  - reflexivity.
  - reflexivity.
  - vm_compute. reflexivity.
  - vm_compute. discriminate.
  - assert (Hact : active (_variableChoiceWindow game_xy_open_near) = true)
      by (vm_compute; reflexivity).
    destruct (Hshown Hact) as (Hop & _ & Hcl & _).
    exists g'. split; [exact Hrun|]. split.
    { apply Hframe; [reflexivity | vm_compute; reflexivity]. }
    split; [apply Hpos; reflexivity|]. split.
    { unfold choiceData_isActive. rewrite Hdata. reflexivity. }
    split; [exact Ha|]. split; [exact Hop|].
    apply Hcl. vm_compute. reflexivity.
Defined.

(** ** Committing a selection *)

(** C2. [callOkHandler] on a session with a positive variable id and the
    cursor on entry [i] writes [i + 1] to the variable, schedules its reset to
    [0] for 100 ms later, deactivates and closes the window and sets
    [isActive] to [false].  The variable reads [i + 1] until the 100 ms are
    over (when no older reset of it is due) and [0] once they are. *)
Theorem callOkHandler_commit (g : Game) (d : ChoiceData) (i : Z) :
  _variableChoiceData g = Some d ->
  0 < variableId d ->
  _index (_variableChoiceWindow g) = i ->
  callOkHandler g
    = mkGame (Some (set_isActive false d))
             (<[variableId d := i + 1]> (gameVariables g))
             (setValueLog g ++ [(variableId d, i + 1)])
             (timeouts g ++ [(100, variableId d)])
             (close (deactivate (_variableChoiceWindow g)))
             (gamePlayer g) (gameMap g)
  /\ value (variableId d) (callOkHandler g) = i + 1
  /\ (forall ms, 0 <= ms < 100 ->
       (forall t, In t (timeouts g) -> t.2 = variableId d -> ms < t.1) ->
       value (variableId d) (elapse ms (callOkHandler g)) = i + 1)
  /\ value (variableId d) (elapse 100 (callOkHandler g)) = 0
  /\ active (_variableChoiceWindow (callOkHandler g)) = false
  /\ _opening (_variableChoiceWindow (callOkHandler g)) = false
  /\ (0 < openness (_variableChoiceWindow g) ->
       _closing (_variableChoiceWindow (callOkHandler g)) = true)
  /\ choiceData_isActive (callOkHandler g) = false.
Proof.
  intros Hd Hid Hi.
  assert (Hrun : callOkHandler g
    = mkGame (Some (set_isActive false d))
             (<[variableId d := i + 1]> (gameVariables g))
             (setValueLog g ++ [(variableId d, i + 1)])
             (timeouts g ++ [(100, variableId d)])
             (close (deactivate (_variableChoiceWindow g)))
             (gamePlayer g) (gameMap g)).
  { unfold callOkHandler. rewrite Hd, Hi; simpl.
    apply Z.ltb_lt in Hid. rewrite Hid. unfold on_data; simpl. by rewrite Hd. }
  split; [exact Hrun|]. rewrite Hrun.
  assert (Hval : forall w,
    value (variableId d)
      (mkGame (Some (set_isActive false d))
              (<[variableId d := i + 1]> (gameVariables g))
              (setValueLog g ++ [(variableId d, i + 1)])
              (timeouts g ++ [(100, variableId d)])
              w (gamePlayer g) (gameMap g)) = i + 1).
  { intros w. unfold value; simpl. by rewrite lookup_insert_eq. }
  repeat split.
  - apply Hval.
  - intros ms Hms Hold. rewrite elapse_none_due; [apply Hval|].
    simpl. intros t Ht Ht2. apply in_app_or in Ht as [Ht|Ht].
    + by apply Hold.
    + destruct Ht as [<-|[]]. simpl. lia.
  - by apply (elapse_youngest_due 100 100 (variableId d) (timeouts g)); [|lia].
  - simpl. by destruct (isClosed (deactivate (_variableChoiceWindow g))).
  - intros Hopen. simpl. unfold close, isClosed; simpl.
    assert (Hc : (openness (_variableChoiceWindow g) <=? 0) = false)
      by (apply Z.leb_gt; lia).
    by rewrite Hc.
Qed.

Lemma callOkHandler_commit_witness :
  value 10 (callOkHandler game_abc_pick1) = 2
  /\ value 10 (elapse 100 (callOkHandler game_abc_pick1)) = 0.
Proof.
  destruct (callOkHandler_commit game_abc_pick1
              (mkChoiceData ["A"; "B"; "C"] 10 true None None) 1)
    as (_ & Hnow & _ & Hlater & _).
  - reflexivity.
  - reflexivity.
  - reflexivity.
  - split; [exact Hnow | exact Hlater].
Defined.

(** The player's confirmation reaches [callOkHandler] when the window is open
    and active and the cursor is on an entry of the list. *)
Lemma processHandling_ok (g : Game) :
  isOpenAndActive (_variableChoiceWindow g) = true ->
  isCurrentItemEnabled (_variableChoiceWindow g) = true ->
  processHandling OkTriggered g = callOkHandler (on_window deactivate g).
Proof.
  intros Hoa Hen. unfold processHandling, processOk. by rewrite Hoa, Hen.
Qed.

(** ** Cancelling *)

Lemma processHandling_not_ok (i : Input) (g : Game) :
  i <> OkTriggered -> processHandling i g = g.
Proof.
  intros Hi. unfold processHandling, processCancel.
  destruct (isOpenAndActive _); [|done].
  destruct i; try done. by destruct (isCancelEnabled _).
Qed.

Lemma processTouch_any (i : Input) (g : Game) : processTouch i g = g.
Proof.
  unfold processTouch, processCancel.
  destruct (isOpenAndActive _); [|done].
  destruct i; try done. by destruct (isCancelEnabled _).
Qed.

(** C7. [processCancel] returns the state it was given, whatever the state:
    session, variables, log of writes, pending resets and window are the same.
    A frame in which the player cancels, by key or by touch, is therefore the
    frame in which the player does nothing, for the window and for the scene,
    whether or not a cancel handler is set; in particular it does not end
    the session. *)
Theorem processCancel_noop (g : Game) :
  processCancel g = g
  /\ choiceData_isActive (processCancel g) = choiceData_isActive g
  /\ setValueLog (processCancel g) = setValueLog g
  /\ _variableChoiceWindow (processCancel g) = _variableChoiceWindow g
  /\ Window_VariableChoice_update CancelTriggered g
     = Window_VariableChoice_update NoInput g
  /\ Window_VariableChoice_update TouchCancelled g
     = Window_VariableChoice_update NoInput g
  /\ Scene_Map_update CancelTriggered g = Scene_Map_update NoInput g
  /\ Scene_Map_update TouchCancelled g = Scene_Map_update NoInput g.
Proof.
  assert (Hkey : Window_Selectable_update CancelTriggered g
                 = Window_Selectable_update NoInput g).
  { unfold Window_Selectable_update.
    by rewrite !processTouch_any, !processHandling_not_ok. }
  assert (Htouch : Window_Selectable_update TouchCancelled g
                   = Window_Selectable_update NoInput g).
  { unfold Window_Selectable_update.
    by rewrite !processTouch_any, !processHandling_not_ok. }
  unfold Scene_Map_update, Window_VariableChoice_update.
  rewrite Hkey, Htouch. by repeat split.
Qed.

(** ** After the resolution *)

Lemma active_updateOpen (w : Window) : active (updateOpen w) = active w.
Proof.
  unfold updateOpen. destruct (_opening w); [|done].
  by destruct (isOpen _).
Qed.

Lemma active_updateClose (w : Window) : active (updateClose w) = active w.
Proof.
  unfold updateClose. destruct (_closing w); [|done].
  by destruct (isClosed _).
Qed.

(** An inactive window takes no input and drains no forced index: its frame
    only moves the openness. *)
Lemma Window_VariableChoice_update_inactive (i : Input) (g : Game) :
  active (_variableChoiceWindow g) = false ->
  Window_VariableChoice_update i g
    = on_window updateClose (on_window updateOpen g).
Proof.
  intros Ha. unfold Window_VariableChoice_update, Window_Selectable_update.
  rewrite processTouch_any.
  assert (Hh : processHandling i g = g).
  { unfold processHandling, isOpenAndActive. by rewrite Ha, andb_false_r. }
  rewrite Hh. simpl. by rewrite active_updateClose, active_updateOpen, Ha.
Qed.

Lemma updateVariableChoice_inactive (g : Game) :
  choiceData_isActive g = false -> updateVariableChoice g = Some g.
Proof.
  intros Hact. unfold updateVariableChoice. rewrite Hact; simpl.
  unfold distanceCheckDue, choiceData_isActive in *.
  destruct (_variableChoiceData g) as [d|]; [|done]. by rewrite Hact.
Qed.

(** The commit leaves the session inactive and the window inactive. *)
Lemma callOkHandler_tears_down (g : Game) :
  choiceData_isActive (callOkHandler g) = false
  /\ active (_variableChoiceWindow (callOkHandler g)) = false.
Proof.
  destruct g as [[d|] vars log ts w pl mp];
    unfold callOkHandler, choiceData_isActive; simpl.
  - destruct (0 <? variableId d); simpl; by destruct (isClosed _).
  - by destruct (isClosed _).
Qed.

(** With the session and the window inactive, frames only move the window's
    openness, whatever the player does. *)
Lemma frames_inactive (inputs : list Input) (g : Game) :
  choiceData_isActive g = false ->
  active (_variableChoiceWindow g) = false ->
  exists g', frames inputs g = Some g'
    /\ _variableChoiceData g' = _variableChoiceData g
    /\ gameVariables g' = gameVariables g
    /\ setValueLog g' = setValueLog g
    /\ timeouts g' = timeouts g
    /\ active (_variableChoiceWindow g') = false.
Proof.
  revert g. induction inputs as [|i rest IH]; intros g Hact Ha; simpl.
  - by exists g.
  - unfold Scene_Map_update.
    rewrite (Window_VariableChoice_update_inactive i g Ha).
    set (g1 := on_window updateClose (on_window updateOpen g)).
    assert (Hact1 : choiceData_isActive g1 = false) by exact Hact.
    assert (Ha1 : active (_variableChoiceWindow g1) = false).
    { subst g1. simpl. by rewrite active_updateClose, active_updateOpen. }
    rewrite (updateVariableChoice_inactive g1 Hact1). simpl.
    destruct (IH g1 Hact1 Ha1) as (g' & Hrun & Hd & Hv & Hl & Ht & Ha').
    exists g'. by repeat split.
Qed.

(** ** Forced index *)

(** After [refresh] the cursor is on an enabled entry exactly when it is a
    position of the choice list. *)
Lemma isCurrentItemEnabled_choice
    (a : bool) (o : Z) (op cl : bool) (k : Z) (cs : list string)
    (h : gset string) :
  0 <= k < Z.of_nat (length cs) ->
  isCurrentItemEnabled
    (mkWindow a o op cl k ((fun c => mkCommand c "select" true) <$> cs) h) = true.
Proof.
  intros [Hlo Hhi]. unfold isCurrentItemEnabled, currentData; simpl.
  assert (H0 : (0 <=? k) = true) by by apply Z.leb_le.
  rewrite H0, list_lookup_fmap.
  destruct (lookup_lt_is_Some_2 cs (Z.to_nat k)) as [c Hc]; [lia|].
  by rewrite Hc.
Qed.

Lemma isCurrentItemEnabled_out_of_range
    (a : bool) (o : Z) (op cl : bool) (k : Z) (cs : list string)
    (h : gset string) :
  k < 0 \/ Z.of_nat (length cs) <= k ->
  isCurrentItemEnabled
    (mkWindow a o op cl k ((fun c => mkCommand c "select" true) <$> cs) h) = false.
Proof.
  intros Hk. unfold isCurrentItemEnabled, currentData; simpl.
  destruct (0 <=? k) eqn:H0; [|done].
  apply Z.leb_le in H0. rewrite list_lookup_fmap.
  rewrite (lookup_ge_None_2 cs (Z.to_nat k)); [done|lia].
Qed.

(** Evaluation of the record plumbing, innermost call first, leaving
    arithmetic, maps and lists alone. *)
Ltac run_fields :=
  cbv [on_window on_data set_window set_data set_timeouts setTimeout setValue
       set_active set_openness set_opening set_closing set_index set_list
       set_isActive set_forcedIndex set_distanceCondition
       activate deactivate select refresh
       _variableChoiceData gameVariables setValueLog timeouts
       _variableChoiceWindow gamePlayer gameMap
       active openness _opening _closing _index _list _handlers
       choices variableId isActive forcedIndex distanceCondition
       choiceData_choices choiceData_isActive choiceData_forcedIndex
       fmap option_fmap option_map mbind option_bind].

Lemma open_closed (a op cl : bool) (ix : Z) (l : list Command) (h : gset string) :
  open (mkWindow a 0 op cl ix l h) = mkWindow a 0 true false ix l h.
Proof. reflexivity. Qed.

Lemma close_closed (a op cl : bool) (ix : Z) (l : list Command) (h : gset string) :
  close (mkWindow a 0 op cl ix l h) = mkWindow a 0 false cl ix l h.
Proof. reflexivity. Qed.

Lemma makeCommandList_data (d : ChoiceData) (vars : gmap Z Z)
    (log ts : list (Z * Z)) (w : Window) (pl : Character) (mp : gmap Z Character) :
  makeCommandList (mkGame (Some d) vars log ts w pl mp)
    = (fun c => mkCommand c "select" true) <$> choices d.
Proof. reflexivity. Qed.

Lemma distanceCheckDue_inactive (g : Game) :
  choiceData_isActive g = false -> distanceCheckDue g = false.
Proof.
  unfold distanceCheckDue, choiceData_isActive.
  destruct (_variableChoiceData g) as [d|]; [|done]. by intros ->.
Qed.



(** Outside the list the host refuses the confirmation: the forced index is
    dropped, nothing is committed and the window waits for the player. *)
Lemma updateVariableChoice_forced_out_of_range :
  (fun g' => (choiceData_isActive g', choiceData_forcedIndex g', value 10 g',
              active (_variableChoiceWindow g')))
    <$> updateVariableChoice (game_abc_forced 7)
  = Some (true, None, 0, true).
Proof. vm_compute. reflexivity. Qed.


(** ** Forced index against the distance check *)

(** A forced index other than [0] keeps the distance check from running. *)
Lemma distanceCheckDue_forced_nonzero (g : Game) (d : ChoiceData) (k : Z) :
  _variableChoiceData g = Some d ->
  forcedIndex d = Some k ->
  k <> 0 ->
  distanceCheckDue g = false.
Proof.
  intros Hd Hf Hk. unfold distanceCheckDue. rewrite Hd, Hf. simpl.
  apply Z.eqb_neq in Hk. rewrite Hk. simpl. apply andb_false_r.
Qed.

(** With such a forced index on a window that is not waiting to be activated,
    [updateVariableChoice] changes nothing: the index waits for the next
    [update] of the window. *)
Lemma updateVariableChoice_forced_nonzero (g : Game) (d : ChoiceData) (k : Z) :
  _variableChoiceData g = Some d ->
  forcedIndex d = Some k ->
  k <> 0 ->
  readyToActivate (_variableChoiceWindow g) = false ->
  updateVariableChoice g = Some g.
Proof.
  intros Hd Hf Hk Hready. unfold updateVariableChoice.
  unfold readyToActivate in Hready.
  rewrite <- andb_assoc, Hready, andb_false_r.
  by rewrite (distanceCheckDue_forced_nonzero g d k).
Qed.

(** Line 182 tests [!choiceData.forcedIndex], and [!0] is [true]: a forced
    index [0] does not keep the distance check from running, while lines 115
    and 174 test [forcedIndex != null] and take [0] for a forced index. *)
Lemma distanceCheckDue_forced_zero (g : Game) (d : ChoiceData) :
  _variableChoiceData g = Some d ->
  isActive d = true ->
  is_Some (distanceCondition d) ->
  forcedIndex d = Some 0 ->
  distanceCheckDue g = true.
Proof.
  intros Hd Hact Hc Hf. unfold distanceCheckDue. rewrite Hd, Hact, Hf. simpl.
  by rewrite bool_decide_eq_true_2.
Qed.

Lemma run_reachable (es : list Event) (g g' : Game) :
  reachable g -> run es g = Some g' -> reachable g'.
Proof.
  revert g. induction es as [|e es IH]; intros g Hreach; simpl.
  - by intros [= <-].
  - destruct (step e g) as [g1|] eqn:Hstep; [|done]. simpl.
    apply IH. by apply (reachable_step e g g1).
Qed.

(** The state in which forced index [0] meets the distance check is a state
    of the game. *)
Lemma game_xy_forced_zero_reachable :
  exists g, game_xy_forced 0 = Some g /\ reachable g.
Proof.
  assert (Hrun : run (schedule_xy_forced 0)
                     (newGame origin {[ 2 := mkCharacter 7 7 ]})
                 = game_xy_forced 0) by (vm_compute; reflexivity).
  destruct (game_xy_forced 0) as [g|].
  - exists g. split; [reflexivity|].
    apply (run_reachable (schedule_xy_forced 0)
             (newGame origin {[ 2 := mkCharacter 7 7 ]}));
      [apply reachable_new | exact Hrun].
  - discriminate Hrun.
Qed.

(** C4. The frame in which forced index [0] is pending on the session of
    section 8, with event 2 next to the player and the window active:
    [updateVariableChoice] runs the distance check, which writes [99] and ends
    the session; the forced index is still set afterwards and is never
    committed.  On the same state the window's own [update] commits the forced
    index and writes [1], and with forced index [1] instead of [0]
    [updateVariableChoice] leaves the state alone. *)
Theorem updateVariableChoice_forced_zero_runs_distance :
  (fun g => (choiceData_isActive g, choiceData_forcedIndex g,
             active (_variableChoiceWindow g), value 20 g))
    <$> game_xy_forced 0
  = Some (true, Some 0, true, 0)
  /\ (fun g' => (choiceData_isActive g', choiceData_forcedIndex g',
                 value 20 g', setValueLog g'))
       <$> (game_xy_forced 0 ≫= updateVariableChoice)
     = Some (false, Some 0, 99, [(20, -1); (20, 0); (20, 99)])
  /\ (fun g => value 20 (Window_VariableChoice_update NoInput g))
       <$> game_xy_forced 0
     = Some 1
  /\ (fun g' => (choiceData_isActive g', choiceData_forcedIndex g',
                 value 20 g', setValueLog g'))
       <$> (game_xy_forced 1 ≫= updateVariableChoice)
     = Some (true, Some 1, 0, [(20, -1); (20, 0)]).
Proof. vm_compute. by repeat split. Qed.

(** ** Every call returns *)

Lemma checkDistanceCondition_guarded (g : Game) :
  distanceCheckDue g = true -> is_Some (checkDistanceCondition g).
Proof.
  unfold distanceCheckDue, checkDistanceCondition.
  destruct (_variableChoiceData g) as [d|]; [|done]. simpl.
  destruct (distanceCondition d) as [c|]; simpl.
  - intros _. destruct (gameMap g !! eventId c); [|done].
    by destruct (_ <=? distance c).
  - by rewrite andb_false_r.
Qed.

(** The guard of line 182 keeps [checkDistanceCondition] from the
    [TypeError]: [updateVariableChoice] always returns. *)
Lemma updateVariableChoice_total (g : Game) : is_Some (updateVariableChoice g).
Proof.
  unfold updateVariableChoice.
  destruct (_ && _ && _).
  - destruct (distanceCheckDue (activateChoiceWindow g)) eqn:Hdue; [|done].
    by apply checkDistanceCondition_guarded.
  - destruct (distanceCheckDue g) eqn:Hdue; [|done].
    by apply checkDistanceCondition_guarded.
Qed.

(** ** The value of the variable while the session is pending *)

Lemma processOk_still_active (g : Game) :
  choiceData_isActive (processOk g) = true -> processOk g = g.
Proof.
  unfold processOk. destruct (isCurrentItemEnabled _); [|done].
  destruct (callOkHandler_tears_down (on_window deactivate g)) as [Htd _].
  rewrite Htd. discriminate.
Qed.

Lemma choiceData_isActive_set_forcedIndex (f : option Z) (g : Game) :
  choiceData_isActive (on_data (set_forcedIndex f) g) = choiceData_isActive g.
Proof.
  unfold choiceData_isActive, on_data; simpl.
  by destruct (_variableChoiceData g).
Qed.

Lemma checkDistanceCondition_still_active (g g' : Game) :
  checkDistanceCondition g = Some g' ->
  choiceData_isActive g' = true ->
  g' = g.
Proof.
  unfold checkDistanceCondition.
  destruct g as [[d|] vars log ts [a o op cl ix l h] pl mp]; [|done].
  destruct d as [cs id act fi [c|]]; [|done]. run_fields.
  destruct (mp !! eventId c) as [e|]; [|by intros [= <-]].
  destruct (_ <=? distance c); [|by intros [= <-]].
  destruct (0 <? id), a; run_fields; intros [= <-]; run_fields; discriminate.
Qed.

(** A call of [updateVariableChoice] that neither activates the window nor
    ends the session changes nothing. *)
Lemma updateVariableChoice_idle (g g' : Game) :
  updateVariableChoice g = Some g' ->
  readyToActivate (_variableChoiceWindow g) = false ->
  choiceData_isActive g' = true ->
  g' = g.
Proof.
  unfold updateVariableChoice, readyToActivate. intros Hrun Hready Hact.
  rewrite <- andb_assoc, Hready, andb_false_r in Hrun.
  destruct (distanceCheckDue g).
  - by apply checkDistanceCondition_still_active.
  - by injection Hrun as <-.
Qed.

Lemma gameVariables_adjust_refresh (g : Game) :
  gameVariables (adjustWindowSize (refresh g)) = gameVariables g.
Proof.
  unfold adjustWindowSize. by destruct (choiceData_choices (refresh g)).
Qed.

(** The window's activation with a positive variable id leaves [0] in the
    variable unless the session ends in the same step. *)
Lemma activateChoiceWindow_resets (g : Game) (d : ChoiceData) :
  _variableChoiceData g = Some d ->
  0 < variableId d ->
  choiceData_isActive (activateChoiceWindow g) = true ->
  value (variableId d) (activateChoiceWindow g) = 0.
Proof.
  intros Hd Hid. unfold activateChoiceWindow. rewrite Hd.
  apply Z.ltb_lt in Hid. rewrite Hid.
  set (g3 := on_window (select (-1)) (on_window activate (on_window open
               (adjustWindowSize (refresh (setValue (variableId d) 0 g)))))).
  assert (H3 : value (variableId d) g3 = 0).
  { unfold value, g3.
    change (gameVariables (on_window (select (-1)) (on_window activate
              (on_window open (adjustWindowSize
                 (refresh (setValue (variableId d) 0 g)))))))
      with (gameVariables (adjustWindowSize
              (refresh (setValue (variableId d) 0 g)))).
    rewrite gameVariables_adjust_refresh.
    apply (value_setValue_eq (variableId d) 0 g). }
  destruct (forcedIndex d) as [k|]; [|done].
  rewrite choiceData_isActive_set_forcedIndex. intros Hact.
  apply processOk_still_active in Hact.
  change (value (variableId d)
            (on_data (set_forcedIndex None) (processOk (on_window (select k) g3))))
    with (value (variableId d) (processOk (on_window (select k) g3))).
  rewrite Hact. exact H3.
Qed.

(** C6, as the code has it.  [updateVariableChoice] always returns.
    [setupVariableChoice] on a positive variable id leaves [-1] in the
    variable.  While the session stays active, the window's
    [update] does not change the variables, and neither does
    [updateVariableChoice] as long as the window is not closed and inactive.
    The call of [updateVariableChoice] that activates the window writes [0]:
    when the session is still active after it, the variable reads [0]. *)
Theorem sentinel_until_activation :
  (forall g : Game, is_Some (updateVariableChoice g))
  /\ (forall (cs : list string) (id : Z) (cond : option DistanceCondition) (g : Game),
        choiceData_isActive g = false ->
        0 < id ->
        value id (setupVariableChoice cs id cond g) = -1
        /\ choiceData_isActive (setupVariableChoice cs id cond g) = true)
  /\ (forall (i : Input) (g : Game),
        choiceData_isActive (Window_VariableChoice_update i g) = true ->
        gameVariables (Window_VariableChoice_update i g) = gameVariables g)
  /\ (forall g g' : Game,
        updateVariableChoice g = Some g' ->
        readyToActivate (_variableChoiceWindow g) = false ->
        choiceData_isActive g' = true ->
        gameVariables g' = gameVariables g)
  /\ (forall (g g' : Game) (d : ChoiceData),
        updateVariableChoice g = Some g' ->
        _variableChoiceData g = Some d ->
        isActive d = true ->
        0 < variableId d ->
        readyToActivate (_variableChoiceWindow g) = true ->
        choiceData_isActive g' = true ->
        value (variableId d) g' = 0).
Proof.
  split; [exact updateVariableChoice_total|]. split; [|split; [|split]].
  - intros cs id cond g Hidle Hid. unfold setupVariableChoice. rewrite Hidle.
    apply Z.ltb_lt in Hid. rewrite Hid. split.
    + apply (value_setValue_eq id (-1) g).
    + reflexivity.
  - intros i g.
    unfold Window_VariableChoice_update, Window_Selectable_update.
    rewrite processTouch_any.
    set (h := processHandling i g).
    set (g1 := on_window updateClose (on_window updateOpen h)).
    assert (Hh : choiceData_isActive h = true -> gameVariables h = gameVariables g).
    { subst h. unfold processHandling.
      destruct (isOpenAndActive _); [|done].
      destruct i; try done.
      - intros Hact. by rewrite (processOk_still_active g Hact).
      - unfold processCancel. by destruct (isCancelEnabled _). }
    destruct (active (_variableChoiceWindow g1)); [|exact Hh].
    destruct (choiceData_forcedIndex g1) as [k|]; [|exact Hh].
    rewrite choiceData_isActive_set_forcedIndex. intros Hact.
    pose proof (processOk_still_active _ Hact) as Hsame.
    change (gameVariables (on_data (set_forcedIndex None)
                             (processOk (on_window (select k) g1))))
      with (gameVariables (processOk (on_window (select k) g1))).
    rewrite Hsame in Hact |- *. apply Hh. exact Hact.
  - intros g g' Hrun Hready Hact.
    by rewrite (updateVariableChoice_idle g g' Hrun Hready Hact).
  - intros g g' d Hrun Hd Hactd Hid Hready Hact.
    unfold updateVariableChoice in Hrun.
    rewrite (choiceData_isActive_Some g d Hd), Hactd in Hrun.
    unfold readyToActivate in Hready. simpl in Hrun. rewrite Hready in Hrun.
    assert (Hsame : g' = activateChoiceWindow g).
    { destruct (distanceCheckDue (activateChoiceWindow g)).
      - by apply checkDistanceCondition_still_active.
      - by injection Hrun as <-. }
    subst g'. by apply activateChoiceWindow_resets.
Qed.

Lemma sentinel_until_activation_witness :
  value 5 game_five = -1 /\ value 5 game_five_shown = 0.
Proof.
  destruct sentinel_until_activation as (_ & Hstart & _ & _ & Hshown).
  split.
  - apply (Hstart ["A"; "B"] 5 None (newGame origin ∅)); [reflexivity|lia].
  - apply (Hshown game_five game_five_shown
                  (mkChoiceData ["A"; "B"] 5 true None None)).
    + vm_compute. reflexivity.
    + reflexivity.
    + reflexivity.
    + reflexivity.
    + reflexivity.
    + vm_compute. reflexivity.
Defined.

(** C6 does not hold one frame after the start: the session on variable 5
    is still active and unresolved, and the variable no longer reads [-1]. *)
Lemma sentinel_overwritten_at_activation :
  value 5 game_five = -1
  /\ (fun g' => (choiceData_isActive g', value 5 g', setValueLog g'))
       <$> Scene_Map_update NoInput game_five
     = Some (true, 0, [(5, -1); (5, 0)])
  /\ ~ (forall g', Scene_Map_update NoInput game_five = Some g' ->
                   choiceData_isActive g' = true -> value 5 g' = -1).
Proof.
  split; [reflexivity|]. split; [vm_compute; reflexivity|].
  intros Hclaim.
  specialize (Hclaim game_five_shown).
  assert (Hv : value 5 game_five_shown = 0) by (vm_compute; reflexivity).
  rewrite Hv in Hclaim.
  assert (H0 : 0 = -1); [|discriminate H0].
  apply Hclaim; vm_compute; reflexivity.
Qed.

(** ** Runs of events, and the window following the session *)

Lemma step_total (e : Event) (g : Game) : is_Some (step e g).
Proof. destruct e; simpl; try done. apply updateVariableChoice_total. Qed.

Lemma run_total (es : list Event) (g : Game) : is_Some (run es g).
Proof.
  revert g. induction es as [|e es IH]; intros g; simpl; [done|].
  destruct (step_total e g) as [g' ->]. simpl. apply IH.
Qed.

Lemma processOk_follows (g : Game) :
  window_follows_session g -> window_follows_session (processOk g).
Proof.
  unfold processOk. destruct (isCurrentItemEnabled _); [|done].
  intros _ Ha.
  destruct (callOkHandler_tears_down (on_window deactivate g)) as [_ Hw].
  congruence.
Qed.

Lemma set_forcedIndex_follows (f : option Z) (g : Game) :
  window_follows_session g ->
  window_follows_session (on_data (set_forcedIndex f) g).
Proof.
  unfold window_follows_session.
  by rewrite choiceData_isActive_set_forcedIndex.
Qed.

Lemma Window_VariableChoice_update_follows (i : Input) (g : Game) :
  window_follows_session g ->
  window_follows_session (Window_VariableChoice_update i g).
Proof.
  intros Hinv.
  unfold Window_VariableChoice_update, Window_Selectable_update.
  rewrite processTouch_any.
  set (h := processHandling i g).
  assert (Hh : window_follows_session h).
  { subst h. unfold processHandling.
    destruct (isOpenAndActive _); [|done].
    destruct i; try done.
    - by apply processOk_follows.
    - unfold processCancel. by destruct (isCancelEnabled _). }
  set (g1 := on_window updateClose (on_window updateOpen h)).
  assert (H1 : window_follows_session g1).
  { unfold window_follows_session, g1. simpl.
    rewrite active_updateClose, active_updateOpen. exact Hh. }
  destruct (active (_variableChoiceWindow g1)) eqn:Ha; [|done].
  destruct (choiceData_forcedIndex g1) as [k|]; [|done].
  apply set_forcedIndex_follows, processOk_follows.
  intros _. by apply H1.
Qed.

Lemma checkDistanceCondition_follows (g g' : Game) :
  checkDistanceCondition g = Some g' ->
  window_follows_session g ->
  window_follows_session g'.
Proof.
  unfold checkDistanceCondition, window_follows_session.
  destruct g as [[d|] vars log ts [a o op cl ix l h] pl mp]; [|done].
  destruct d as [cs id act fi [c|]]; [|done]. run_fields.
  destruct (mp !! eventId c) as [e|]; [|by intros [= <-]].
  destruct (_ <=? distance c); [|by intros [= <-]].
  destruct (0 <? id), a; run_fields; intros [= <-] _; run_fields;
    try discriminate; cbv [close isClosed]; run_fields;
    destruct (o <=? 0); run_fields; discriminate.
Qed.

Lemma activateChoiceWindow_follows (g : Game) :
  choiceData_isActive g = true ->
  window_follows_session (activateChoiceWindow g).
Proof.
  intros Hact. unfold activateChoiceWindow.
  destruct (_variableChoiceData g) as [d|] eqn:Hd;
    [|unfold choiceData_isActive in Hact; by rewrite Hd in Hact].
  set (g3 := on_window (select (-1)) (on_window activate (on_window open
               (adjustWindowSize (refresh
                  (if 0 <? variableId d then setValue (variableId d) 0 g
                   else g)))))).
  assert (H3 : window_follows_session g3).
  { intros _. unfold g3, choiceData_isActive in *.
    change (_variableChoiceData (on_window (select (-1)) (on_window activate
              (on_window open (adjustWindowSize (refresh
                 (if 0 <? variableId d then setValue (variableId d) 0 g
                  else g)))))))
      with (_variableChoiceData (adjustWindowSize (refresh
              (if 0 <? variableId d then setValue (variableId d) 0 g else g)))).
    unfold adjustWindowSize.
    destruct (choiceData_choices _); destruct (0 <? variableId d); simpl;
      by rewrite Hd in *. }
  destruct (forcedIndex d) as [k|]; [|done].
  apply set_forcedIndex_follows, processOk_follows.
  intros _. by apply H3.
Qed.

Lemma updateVariableChoice_follows (g g' : Game) :
  updateVariableChoice g = Some g' ->
  window_follows_session g ->
  window_follows_session g'.
Proof.
  intros Hrun Hinv.
  destruct (choiceData_isActive g) eqn:Hact.
  - unfold updateVariableChoice in Hrun. rewrite Hact in Hrun.
    destruct (_ && _) in Hrun.
    + pose proof (activateChoiceWindow_follows g Hact) as Hinv'.
      destruct (distanceCheckDue _) in Hrun.
      * by apply (checkDistanceCondition_follows _ _ Hrun).
      * by injection Hrun as <-.
    + destruct (distanceCheckDue _) in Hrun.
      * by apply (checkDistanceCondition_follows _ _ Hrun).
      * by injection Hrun as <-.
  - rewrite (updateVariableChoice_inactive g Hact) in Hrun.
    by injection Hrun as <-.
Qed.

(** In every state the game can reach, an active window has an active
    session; in particular a resolved session has an inactive window. *)
Lemma reachable_window_follows_session (g : Game) :
  reachable g -> window_follows_session g.
Proof.
  induction 1 as [player events|e g g' Hreach IH Hstep].
  - intros Ha. discriminate Ha.
  - destruct e; simpl in Hstep.
    + injection Hstep as <-. unfold setupVariableChoice.
      destruct (choiceData_isActive g) eqn:Hact; [done|].
      intros _. by destruct (0 <? id).
    + injection Hstep as <-. by apply set_forcedIndex_follows.
    + by injection Hstep as <-.
    + by injection Hstep as <-.
    + injection Hstep as <-. by apply Window_VariableChoice_update_follows.
    + by apply (updateVariableChoice_follows _ _ Hstep).
    + injection Hstep as <-. unfold window_follows_session, elapse.
      generalize (List.filter (fun t : Z * Z => t.1 <=? ms) (timeouts g)).
      generalize (List.map (fun t : Z * Z => (t.1 - ms, t.2))
                    (List.filter (fun t : Z * Z => negb (t.1 <=? ms))
                       (timeouts g))).
      intros later due.
      assert (Hfold : forall g0,
        _variableChoiceData (foldl (fun g' t => setValue t.2 0 g') g0 due)
          = _variableChoiceData g0
        /\ _variableChoiceWindow (foldl (fun g' t => setValue t.2 0 g') g0 due)
          = _variableChoiceWindow g0).
      { induction due as [|t due IHdue]; intros g0; simpl; [done|].
        destruct (IHdue (setValue t.2 0 g0)) as [-> ->]. done. }
      destruct (Hfold (set_timeouts later g)) as [Hd Hw].
      unfold choiceData_isActive. rewrite Hd, Hw. exact IH.
Qed.

(** C9. Once [isActive] is [false], [updateVariableChoice] returns the state
    it was given.  With the window inactive, as every resolution leaves it and
    as it is in every state the game can reach with an inactive session, any
    number of later frames with any inputs keeps the session object, the
    variables, the log of writes and the pending resets as they were: no
    second resolution, no further write by the frames. *)
Theorem resolved_session_frames_noop (g : Game) :
  choiceData_isActive g = false ->
  updateVariableChoice g = Some g
  /\ (active (_variableChoiceWindow g) = false \/ reachable g ->
      forall inputs : list Input,
      exists g', frames inputs g = Some g'
        /\ _variableChoiceData g' = _variableChoiceData g
        /\ gameVariables g' = gameVariables g
        /\ setValueLog g' = setValueLog g
        /\ timeouts g' = timeouts g
        /\ choiceData_isActive g' = false
        /\ active (_variableChoiceWindow g') = false).
Proof.
  intros Hact. split; [by apply updateVariableChoice_inactive|].
  intros Hw inputs.
  assert (Ha : active (_variableChoiceWindow g) = false).
  { destruct Hw as [Ha|Hreach]; [exact Ha|].
    pose proof (reachable_window_follows_session g Hreach) as Hinv.
    unfold window_follows_session in Hinv.
    destruct (active (_variableChoiceWindow g)); [|done].
    rewrite Hinv in Hact; done. }
  destruct (frames_inactive inputs g Hact Ha)
    as (g' & Hrun & Hd & Hv & Hl & Ht & Ha').
  exists g'. repeat split; try done.
  unfold choiceData_isActive in *. by rewrite Hd.
Qed.

Lemma resolved_session_frames_noop_witness :
  exists g',
    frames [NoInput; OkTriggered; CancelTriggered] (callOkHandler game_abc_pick1)
      = Some g'
    /\ setValueLog g' = setValueLog (callOkHandler game_abc_pick1).
Proof.
  destruct (resolved_session_frames_noop (callOkHandler game_abc_pick1))
    as [_ Hframes].
  - vm_compute. reflexivity.
  - assert (Ha : active (_variableChoiceWindow (callOkHandler game_abc_pick1))
                 = false) by (vm_compute; reflexivity).
    destruct (Hframes (or_introl Ha) [NoInput; OkTriggered; CancelTriggered])
      as (g' & Hrun & _ & _ & Hlog & _).
    exists g'. split; [exact Hrun | exact Hlog].
Defined.

(** * Further properties *)

(** ** The size and place of the choice window *)

Lemma foldl_max_le (a m : Z) (l : list string) :
  foldl (fun m c => Z.max m (textLength c)) a l <= m
  <-> a <= m /\ Forall (fun c => textLength c <= m) l.
Proof.
  revert a. induction l as [|c l IH]; intros a; simpl.
  - split; [intros H; by split|by intros [H _]].
  - rewrite IH, Forall_cons. split.
    + intros [H1 H2]. repeat split; [lia|lia|done].
    + intros [H1 [H2 H3]]. split; [lia|done].
Qed.

Lemma maxTextLength_le (c : string) (rest : list string) (m : Z) :
  maxTextLength c rest <= m <-> Forall (fun s => textLength s <= m) (c :: rest).
Proof. unfold maxTextLength. by rewrite foldl_max_le, Forall_cons. Qed.

Lemma maxTextLength_Permutation (c c' : string) (rest rest' : list string) :
  c :: rest ≡ₚ c' :: rest' -> maxTextLength c rest = maxTextLength c' rest'.
Proof.
  intros Hperm. apply Z.le_antisymm.
  - apply maxTextLength_le. rewrite Hperm. by apply maxTextLength_le.
  - apply maxTextLength_le. rewrite <- Hperm. by apply maxTextLength_le.
Qed.

Lemma textLength_nonneg (s : string) : 0 <= textLength s.
Proof. unfold textLength. lia. Qed.

(** X1. With something to list, the width [adjustWindowSize] gives the window
    is between 184 and 434 pixels: 184 when no label is longer than 6
    characters, 434 when one has 15 or more, and 30 pixels per character of
    the longest label plus 4 in between. *)
Theorem adjustWindowSize_rect_width
    (g : Game) (messageWindow : option Rectangle) (graphicsHeight : Z)
    (r : Rectangle) (c : string) (rest : list string) :
  choiceData_choices g = c :: rest ->
  184 <= width (adjustWindowSize_rect g messageWindow graphicsHeight r) <= 434
  /\ (maxTextLength c rest <= 6 ->
      width (adjustWindowSize_rect g messageWindow graphicsHeight r) = 184)
  /\ (15 <= maxTextLength c rest ->
      width (adjustWindowSize_rect g messageWindow graphicsHeight r) = 434)
  /\ (6 <= maxTextLength c rest <= 14 ->
      width (adjustWindowSize_rect g messageWindow graphicsHeight r)
      = maxTextLength c rest * 30 + 4).
Proof.
  intros Hcs. unfold adjustWindowSize_rect. rewrite Hcs.
  cbn [width]. unfold calculatedWidth. repeat split; lia.
Qed.

Lemma adjustWindowSize_rect_width_witness :
  width (adjustWindowSize_rect game_battle (Some messageWindow_bottom) 624
           (mkRectangle 0 0 450 240)) = 244.
Proof.
  destruct (adjustWindowSize_rect_width game_battle (Some messageWindow_bottom)
              624 (mkRectangle 0 0 450 240) "Attack" ["Defend"; "Run away"])
    as (_ & _ & _ & Hmid).
  - reflexivity.
  - rewrite Hmid; [reflexivity|]. vm_compute. split; discriminate.
Defined.

(** X2. The width leaves 30 pixels and a margin to every character of every
    label, up to the cap of 434, and the rectangle does not depend on the
    order of the choices. *)
Theorem adjustWindowSize_rect_labels
    (g g' : Game) (messageWindow : option Rectangle) (graphicsHeight : Z)
    (r : Rectangle) :
  choiceData_choices g ≡ₚ choiceData_choices g' ->
  adjustWindowSize_rect g messageWindow graphicsHeight r
    = adjustWindowSize_rect g' messageWindow graphicsHeight r
  /\ forall s, s ∈ choiceData_choices g ->
       Z.min (textLength s * 30 + 4) 434
       <= width (adjustWindowSize_rect g messageWindow graphicsHeight r).
Proof.
  intros Hperm. unfold adjustWindowSize_rect. split.
  - destruct (choiceData_choices g) as [|c rest],
             (choiceData_choices g') as [|c' rest'].
    + done.
    + by apply Permutation_nil_cons in Hperm.
    + symmetry in Hperm. by apply Permutation_nil_cons in Hperm.
    + rewrite (maxTextLength_Permutation c c' rest rest' Hperm).
      by rewrite (Permutation_length Hperm).
  - intros s Hs.
    destruct (choiceData_choices g) as [|c rest]; [by apply elem_of_nil in Hs|].
    cbn [width]. unfold calculatedWidth.
    assert (Hle : textLength s <= maxTextLength c rest).
    { pose proof (proj1 (maxTextLength_le c rest (maxTextLength c rest))
                    (Z.le_refl _)) as Hall.
      rewrite Forall_forall in Hall. by apply Hall. }
    lia.
Qed.

Lemma adjustWindowSize_rect_labels_witness :
  adjustWindowSize_rect game_battle (Some messageWindow_bottom) 624
    (mkRectangle 0 0 450 240)
  = adjustWindowSize_rect game_battle_reordered (Some messageWindow_bottom) 624
      (mkRectangle 0 0 450 240).
Proof.
  apply (adjustWindowSize_rect_labels game_battle game_battle_reordered).
  change (["Attack"; "Defend"] ++ ["Run away"]
          ≡ₚ "Run away" :: ["Attack"; "Defend"]).
  symmetry. apply Permutation_cons_append.
Defined.

(** X3. The height is 48 pixels per choice plus 20, and the window is placed
    with its lower edge on the upper edge of the message window, or on the
    lower edge of the screen when the scene has no message window. *)
Theorem adjustWindowSize_rect_vertical
    (g : Game) (messageWindow : option Rectangle) (graphicsHeight : Z)
    (r : Rectangle) :
  choiceData_choices g <> [] ->
  height (adjustWindowSize_rect g messageWindow graphicsHeight r)
    = Z.of_nat (length (choiceData_choices g)) * 48 + 20
  /\ y (adjustWindowSize_rect g messageWindow graphicsHeight r)
     + height (adjustWindowSize_rect g messageWindow graphicsHeight r)
     = from_option y graphicsHeight messageWindow.
Proof.
  intros Hcs. unfold adjustWindowSize_rect.
  destruct (choiceData_choices g) as [|c rest]; [done|].
  cbn [y height]. unfold calculatedHeight. split; lia.
Qed.

Lemma adjustWindowSize_rect_vertical_witness :
  height (adjustWindowSize_rect game_battle (Some messageWindow_bottom) 624
            (mkRectangle 0 0 450 240)) = 164
  /\ y (adjustWindowSize_rect game_battle (Some messageWindow_bottom) 624
          (mkRectangle 0 0 450 240))
     + height (adjustWindowSize_rect game_battle (Some messageWindow_bottom) 624
                 (mkRectangle 0 0 450 240)) = 444.
Proof.
  apply (adjustWindowSize_rect_vertical game_battle (Some messageWindow_bottom)
           624 (mkRectangle 0 0 450 240)).
  discriminate.
Defined.

(** X4. The window never starts left of the screen.  When the right edge of
    the message window is at least one window width from the left of the
    screen the two right edges coincide; otherwise the window starts at 0.
    Without a message window the right edge is at 816. *)
Theorem adjustWindowSize_rect_horizontal
    (g : Game) (messageWindow : option Rectangle) (graphicsHeight : Z)
    (r : Rectangle) :
  choiceData_choices g <> [] ->
  let r' := adjustWindowSize_rect g messageWindow graphicsHeight r in
  let right := from_option x 0 messageWindow
               + from_option width 816 messageWindow in
  0 <= x r'
  /\ (width r' <= right -> x r' + width r' = right)
  /\ (right <= width r' -> x r' = 0)
  /\ (messageWindow = None -> x r' + width r' = 816).
Proof.
  intros Hcs r' right. subst r' right. unfold adjustWindowSize_rect.
  destruct (choiceData_choices g) as [|c rest]; [done|].
  cbn [x width]. repeat split; try lia.
  intros ->. simpl. unfold calculatedWidth. lia.
Qed.

Lemma adjustWindowSize_rect_horizontal_witness :
  x (adjustWindowSize_rect game_battle None 624 (mkRectangle 0 0 450 240))
  + width (adjustWindowSize_rect game_battle None 624 (mkRectangle 0 0 450 240))
  = 816.
Proof.
  destruct (adjustWindowSize_rect_horizontal game_battle None 624
              (mkRectangle 0 0 450 240)) as (_ & _ & _ & Hnone).
  - discriminate.
  - apply Hnone. reflexivity.
Defined.

(** ** Where the writes go *)

Lemma writes_to_destination_refl (g : Game) : writes_to_destination g g.
Proof.
  split; [done|]. exists [], []. by rewrite !app_nil_r.
Qed.

Lemma writes_to_destination_trans (g1 g2 g3 : Game) :
  writes_to_destination g1 g2 ->
  writes_to_destination g2 g3 ->
  writes_to_destination g1 g3.
Proof.
  intros [Hid12 (ws & ts & Hl & Ht & Hws & Hts)]
         [Hid23 (ws' & ts' & Hl' & Ht' & Hws' & Hts')].
  split; [congruence|].
  exists (ws ++ ws'), (ts ++ ts').
  rewrite Hl', Hl, Ht', Ht, !app_assoc. repeat split.
  - apply Forall_app. split; [done|].
    eapply Forall_impl; [exact Hws'|].
    intros w [Hd Hpos]. split; [congruence|done].
  - apply Forall_app. split; [done|].
    eapply Forall_impl; [exact Hts'|].
    intros t [H100 [Hd Hpos]]. repeat split; [done|congruence|done].
Qed.

Lemma writes_to_destination_window (f : Window -> Window) (g : Game) :
  writes_to_destination g (on_window f g).
Proof.
  split; [done|]. exists [], []. by rewrite !app_nil_r.
Qed.

Lemma writes_to_destination_data (f : ChoiceData -> ChoiceData) (g : Game) :
  (forall d, variableId (f d) = variableId d) ->
  writes_to_destination g (on_data f g).
Proof.
  intros Hf. split.
  - unfold choiceData_variableId, on_data; simpl.
    destruct (_variableChoiceData g) as [d|]; simpl; [by rewrite Hf|done].
  - exists [], []. by rewrite !app_nil_r.
Qed.

Lemma writes_to_destination_setValue (id v : Z) (g : Game) :
  destination g id -> writes_to_destination g (setValue id v g).
Proof.
  intros Hd. split; [done|]. exists [(id, v)], []. rewrite app_nil_r.
  repeat split; [|done]. by apply Forall_singleton.
Qed.

Lemma writes_to_destination_setTimeout (id : Z) (g : Game) :
  destination g id -> writes_to_destination g (setTimeout 100 id g).
Proof.
  intros Hd. split; [done|]. exists [], [(100, id)]. rewrite app_nil_r.
  repeat split; [done|]. by apply Forall_singleton.
Qed.

Lemma writes_to_destination_callOkHandler (g : Game) :
  writes_to_destination g (callOkHandler g).
Proof.
  unfold callOkHandler.
  eapply writes_to_destination_trans;
    [|apply writes_to_destination_data; by intros []].
  eapply writes_to_destination_trans; [|apply writes_to_destination_window].
  eapply writes_to_destination_trans; [|apply writes_to_destination_window].
  destruct (_variableChoiceData g) as [d|] eqn:Hd; simpl;
    [|apply writes_to_destination_refl].
  destruct (0 <? variableId d) eqn:Hid; [|apply writes_to_destination_refl].
  apply Z.ltb_lt in Hid.
  assert (Hdest : destination g (variableId d)).
  { split; [|done]. unfold choiceData_variableId. by rewrite Hd. }
  eapply writes_to_destination_trans.
  - by apply writes_to_destination_setValue.
  - by apply writes_to_destination_setTimeout.
Qed.

Lemma writes_to_destination_processOk (g : Game) :
  writes_to_destination g (processOk g).
Proof.
  unfold processOk. destruct (isCurrentItemEnabled _);
    [|apply writes_to_destination_refl].
  eapply writes_to_destination_trans; [apply writes_to_destination_window|].
  apply writes_to_destination_callOkHandler.
Qed.

Lemma writes_to_destination_Window_update (i : Input) (g : Game) :
  writes_to_destination g (Window_VariableChoice_update i g).
Proof.
  unfold Window_VariableChoice_update, Window_Selectable_update.
  rewrite processTouch_any.
  set (h := processHandling i g).
  assert (Hh : writes_to_destination g h).
  { subst h. unfold processHandling.
    destruct (isOpenAndActive _); [|apply writes_to_destination_refl].
    destruct i; try apply writes_to_destination_refl.
    - apply writes_to_destination_processOk.
    - unfold processCancel. destruct (isCancelEnabled _);
        apply writes_to_destination_refl. }
  set (g1 := on_window updateClose (on_window updateOpen h)).
  assert (H1 : writes_to_destination g g1).
  { eapply writes_to_destination_trans; [exact Hh|].
    eapply writes_to_destination_trans; apply writes_to_destination_window. }
  destruct (active (_variableChoiceWindow g1)); [|exact H1].
  destruct (choiceData_forcedIndex g1) as [k|]; [|exact H1].
  eapply writes_to_destination_trans; [exact H1|].
  eapply writes_to_destination_trans; [apply writes_to_destination_window|].
  eapply writes_to_destination_trans; [apply writes_to_destination_processOk|].
  apply writes_to_destination_data. by intros [].
Qed.

Lemma writes_to_destination_refresh (g : Game) :
  writes_to_destination g (adjustWindowSize (refresh g)).
Proof.
  unfold adjustWindowSize.
  destruct (choiceData_choices (refresh g));
    [apply writes_to_destination_window|].
  eapply writes_to_destination_trans; apply writes_to_destination_window.
Qed.

Lemma writes_to_destination_activate (g : Game) :
  writes_to_destination g (activateChoiceWindow g).
Proof.
  unfold activateChoiceWindow.
  destruct (_variableChoiceData g) as [d|] eqn:Hd;
    [|apply writes_to_destination_refl].
  set (g1 := if 0 <? variableId d then setValue (variableId d) 0 g else g).
  assert (H1 : writes_to_destination g g1).
  { subst g1. destruct (0 <? variableId d) eqn:Hid;
      [|apply writes_to_destination_refl].
    apply writes_to_destination_setValue. apply Z.ltb_lt in Hid.
    split; [|done]. unfold choiceData_variableId. by rewrite Hd. }
  set (g3 := on_window (select (-1)) (on_window activate (on_window open
               (adjustWindowSize (refresh g1))))).
  assert (H3 : writes_to_destination g g3).
  { eapply writes_to_destination_trans; [exact H1|].
    eapply writes_to_destination_trans; [apply writes_to_destination_refresh|].
    eapply writes_to_destination_trans; [apply writes_to_destination_window|].
    eapply writes_to_destination_trans; apply writes_to_destination_window. }
  destruct (forcedIndex d) as [k|]; [|exact H3].
  eapply writes_to_destination_trans; [exact H3|].
  eapply writes_to_destination_trans; [apply writes_to_destination_window|].
  eapply writes_to_destination_trans; [apply writes_to_destination_processOk|].
  apply writes_to_destination_data. by intros [].
Qed.

Lemma writes_to_destination_checkDistance (g g' : Game) :
  checkDistanceCondition g = Some g' -> writes_to_destination g g'.
Proof.
  unfold checkDistanceCondition.
  destruct (_variableChoiceData g) as [d|] eqn:Hd; [|done]. simpl.
  destruct (distanceCondition d) as [c|]; [|done]. simpl.
  destruct (gameMap g !! eventId c) as [e|];
    [|intros [= <-]; apply writes_to_destination_refl].
  destruct (_ <=? distance c);
    [|intros [= <-]; apply writes_to_destination_refl].
  intros [= <-].
  set (g1 := if 0 <? variableId d
             then setTimeout 100 (variableId d)
                    (setValue (variableId d) (index c) g)
             else g).
  assert (H1 : writes_to_destination g g1).
  { subst g1. destruct (0 <? variableId d) eqn:Hid;
      [|apply writes_to_destination_refl].
    apply Z.ltb_lt in Hid.
    assert (Hdest : destination g (variableId d)).
    { split; [|done]. unfold choiceData_variableId. by rewrite Hd. }
    eapply writes_to_destination_trans.
    - by apply writes_to_destination_setValue.
    - by apply writes_to_destination_setTimeout. }
  eapply writes_to_destination_trans;
    [|apply writes_to_destination_data; by intros []].
  eapply writes_to_destination_trans;
    [|apply writes_to_destination_data; by intros []].
  destruct (active (_variableChoiceWindow g1)); [|exact H1].
  eapply writes_to_destination_trans; [exact H1|].
  eapply writes_to_destination_trans; apply writes_to_destination_window.
Qed.

Lemma writes_to_destination_updateVariableChoice (g g' : Game) :
  updateVariableChoice g = Some g' -> writes_to_destination g g'.
Proof.
  unfold updateVariableChoice.
  set (g1 := if _ && _ && _ then activateChoiceWindow g else g).
  assert (H1 : writes_to_destination g g1).
  { subst g1. destruct (_ && _ && _);
      [apply writes_to_destination_activate|apply writes_to_destination_refl]. }
  destruct (distanceCheckDue g1).
  - intros Hrun. eapply writes_to_destination_trans; [exact H1|].
    by apply writes_to_destination_checkDistance.
  - by intros [= <-].
Qed.

(** X5. Whatever a frame writes goes to the variable of the session, and only
    when its id is positive: from before the frame to after it, the log of
    writes and the pending resets grow only by writes to that variable and by
    resets of it in 100 ms, and the session keeps its variable.  A frame with
    no session, or with a session whose id is not positive, writes and
    schedules nothing. *)
Theorem Scene_Map_update_writes (i : Input) (g g' : Game) :
  Scene_Map_update i g = Some g' ->
  writes_to_destination g g'
  /\ ((forall id, choiceData_variableId g = Some id -> id <= 0) ->
      setValueLog g' = setValueLog g /\ timeouts g' = timeouts g).
Proof.
  unfold Scene_Map_update. intros Hrun.
  assert (Hw : writes_to_destination g g').
  { eapply writes_to_destination_trans.
    - apply (writes_to_destination_Window_update i).
    - by apply writes_to_destination_updateVariableChoice. }
  split; [exact Hw|]. intros Hshow.
  destruct Hw as [_ (ws & ts & Hl & Ht & Hws & Hts)].
  destruct ws as [|w ws].
  - destruct ts as [|t ts]; [by rewrite Hl, Ht, !app_nil_r|].
    apply Forall_cons in Hts as [[_ [Hid Hpos]] _].
    specialize (Hshow _ Hid). lia.
  - apply Forall_cons in Hws as [[Hid Hpos] _].
    specialize (Hshow _ Hid). lia.
Qed.

Lemma Scene_Map_update_writes_witness :
  setValueLog game_show_shown = setValueLog game_show
  /\ timeouts game_show_shown = timeouts game_show.
Proof.
  destruct (Scene_Map_update_writes NoInput game_show game_show_shown)
    as [_ Hquiet].
  - vm_compute. reflexivity.
  - apply Hquiet. intros id Hid. vm_compute in Hid.
    injection Hid as <-. lia.
Defined.

(** ** Runs *)

Lemma elapse_fields (ms : Z) (g : Game) :
  _variableChoiceData (elapse ms g) = _variableChoiceData g
  /\ _variableChoiceWindow (elapse ms g) = _variableChoiceWindow g
  /\ setValueLog (elapse ms g)
     = setValueLog g
       ++ ((fun t => (t.2, 0)) <$> List.filter (fun t => t.1 <=? ms) (timeouts g))
  /\ timeouts (elapse ms g)
     = (fun t => (t.1 - ms, t.2))
         <$> List.filter (fun t => negb (t.1 <=? ms)) (timeouts g).
Proof.
  unfold elapse.
  generalize (List.filter (fun t : Z * Z => t.1 <=? ms) (timeouts g)).
  intros due.
  set (g0 := set_timeouts _ g).
  assert (Hfold : forall g1,
    _variableChoiceData (foldl (fun g' t => setValue t.2 0 g') g1 due)
      = _variableChoiceData g1
    /\ _variableChoiceWindow (foldl (fun g' t => setValue t.2 0 g') g1 due)
      = _variableChoiceWindow g1
    /\ setValueLog (foldl (fun g' t => setValue t.2 0 g') g1 due)
      = setValueLog g1 ++ ((fun t => (t.2, 0)) <$> due)
    /\ timeouts (foldl (fun g' t => setValue t.2 0 g') g1 due) = timeouts g1).
  { induction due as [|t due IH]; intros g1; simpl.
    - by rewrite app_nil_r.
    - destruct (IH (setValue t.2 0 g1)) as (-> & -> & -> & ->).
      simpl. by rewrite <- app_assoc. }
  destruct (Hfold g0) as (-> & -> & -> & ->). done.
Qed.

Lemma writes_to_destination_for_show (g g' : Game) :
  writes_to_destination g g' ->
  (forall id, choiceData_variableId g = Some id -> id <= 0) ->
  (forall id, choiceData_variableId g' = Some id -> id <= 0)
  /\ setValueLog g' = setValueLog g
  /\ timeouts g' = timeouts g.
Proof.
  intros [Hid (ws & ts & Hl & Ht & Hws & Hts)] Hshow.
  split; [by rewrite Hid|].
  destruct ws as [|w ws].
  - destruct ts as [|t ts]; [by rewrite Hl, Ht, !app_nil_r|].
    apply Forall_cons in Hts as [[_ [Hd Hpos]] _].
    specialize (Hshow _ Hd). lia.
  - apply Forall_cons in Hws as [[Hd Hpos] _].
    specialize (Hshow _ Hd). lia.
Qed.

Lemma writes_to_destination_positive (g g' : Game) :
  writes_to_destination g g' -> positive_ids g -> positive_ids g'.
Proof.
  intros [_ (ws & ts & Hl & Ht & Hws & Hts)] [Hlog Htime].
  unfold positive_ids. rewrite Hl, Ht. split; apply Forall_app; split;
    try done.
  - eapply Forall_impl; [exact Hws|]. by intros w [_ Hpos].
  - eapply Forall_impl; [exact Hts|]. by intros t [_ [_ Hpos]].
Qed.

Lemma step_for_show (e : Event) (g g' : Game) :
  for_show e = true ->
  step e g = Some g' ->
  (forall id, choiceData_variableId g = Some id -> id <= 0) ->
  setValueLog g = [] ->
  timeouts g = [] ->
  (forall id, choiceData_variableId g' = Some id -> id <= 0)
  /\ setValueLog g' = [] /\ timeouts g' = [].
Proof.
  intros He Hstep Hshow Hlog Htime.
  destruct e as [cs id cond|k|id c|c|i| |ms]; simpl in He, Hstep.
  - injection Hstep as <-. unfold setupVariableChoice.
    destruct (choiceData_isActive g); [done|].
    apply Z.leb_le in He.
    assert (Hid : (0 <? id) = false) by (apply Z.ltb_ge; lia).
    rewrite Hid. repeat split; try done.
    intros id' [= <-]. done.
  - injection Hstep as <-.
    destruct (writes_to_destination_for_show g (ForceIndex k g))
      as (H1 & H2 & H3); [|done|].
    + apply writes_to_destination_data. by intros [].
    + by rewrite H2, H3.
  - by injection Hstep as <-.
  - by injection Hstep as <-.
  - injection Hstep as <-.
    destruct (writes_to_destination_for_show g (Window_VariableChoice_update i g))
      as (H1 & H2 & H3); [apply writes_to_destination_Window_update|done|].
    by rewrite H2, H3.
  - destruct (writes_to_destination_for_show g g') as (H1 & H2 & H3);
      [by apply writes_to_destination_updateVariableChoice|done|].
    by rewrite H2, H3.
  - injection Hstep as <-.
    destruct (elapse_fields ms g) as (Hd & _ & Hl & Ht).
    rewrite Hl, Ht, Hlog, Htime. repeat split; try done.
    unfold choiceData_variableId in *. by rewrite Hd.
Qed.

(** X6. A game whose scripts start sessions only with a variable id that is
    not positive never calls [setValue] and never schedules a reset, whatever
    else happens: forced indices, moves, window updates with any input, calls
    of [updateVariableChoice], time passing. *)
Theorem run_for_show
    (es : list Event) (player : Character) (events : gmap Z Character)
    (g' : Game) :
  forallb for_show es = true ->
  run es (newGame player events) = Some g' ->
  setValueLog g' = [] /\ timeouts g' = [].
Proof.
  intros Hes Hrun.
  assert (Hgen : forall g,
    (forall id, choiceData_variableId g = Some id -> id <= 0) ->
    setValueLog g = [] -> timeouts g = [] ->
    run es g = Some g' -> setValueLog g' = [] /\ timeouts g' = []).
  { clear Hrun. induction es as [|e es IH]; intros g Hshow Hlog Htime; simpl.
    - by intros [= <-].
    - simpl in Hes. apply andb_true_iff in Hes as [He Hes].
      destruct (step e g) as [g1|] eqn:Hstep; [|done]. simpl.
      destruct (step_for_show e g g1 He Hstep Hshow Hlog Htime)
        as (H1 & H2 & H3).
      by apply IH. }
  apply (Hgen (newGame player events)); done.
Qed.

Lemma run_for_show_witness :
  setValueLog game_show_end = [] /\ timeouts game_show_end = [].
Proof.
  apply (run_for_show schedule_show origin ∅ game_show_end).
  - reflexivity.
  - vm_compute. reflexivity.
Defined.

Lemma step_positive_ids (e : Event) (g g' : Game) :
  step e g = Some g' -> positive_ids g -> positive_ids g'.
Proof.
  intros Hstep Hpos.
  destruct e as [cs id cond|k|id c|c|i| |ms]; simpl in Hstep.
  - injection Hstep as <-. unfold setupVariableChoice.
    destruct (choiceData_isActive g); [done|].
    destruct (0 <? id) eqn:Hid; [|done].
    apply Z.ltb_lt in Hid. destruct Hpos as [Hlog Htime].
    split; [|done]. simpl. apply Forall_app. split; [done|].
    by apply Forall_singleton.
  - by injection Hstep as <-.
  - by injection Hstep as <-.
  - by injection Hstep as <-.
  - injection Hstep as <-.
    apply (writes_to_destination_positive g); [|done].
    apply writes_to_destination_Window_update.
  - apply (writes_to_destination_positive g); [|done].
    by apply writes_to_destination_updateVariableChoice.
  - injection Hstep as <-. destruct Hpos as [Hlog Htime].
    destruct (elapse_fields ms g) as (_ & _ & Hl & Ht).
    unfold positive_ids. rewrite Hl, Ht. split.
    + apply Forall_app. split; [done|]. apply Forall_fmap.
      apply Forall_forall. intros t Ht'.
      apply list_elem_of_In, List.filter_In in Ht' as [Hin _].
      rewrite Forall_forall in Htime. simpl. apply (Htime t).
      by apply list_elem_of_In.
    + apply Forall_fmap. apply Forall_forall. intros t Ht'.
      apply list_elem_of_In, List.filter_In in Ht' as [Hin _].
      rewrite Forall_forall in Htime. simpl. apply (Htime t).
      by apply list_elem_of_In.
Qed.

(** X7. In every state the game can reach, every call of [setValue] made so
    far was on a positive variable id, and every pending reset is for a
    positive id: the plugin never writes a variable whose id is zero or
    negative. *)
Theorem reachable_positive_ids (g : Game) : reachable g -> positive_ids g.
Proof.
  induction 1 as [player events|e g g' Hreach IH Hstep].
  - split; constructor.
  - by apply (step_positive_ids e g g').
Qed.

Lemma reachable_positive_ids_witness : positive_ids game_xy_forced_one.
Proof.
  apply reachable_positive_ids.
  apply (run_reachable (schedule_xy_forced 1)
           (newGame origin {[ 2 := mkCharacter 7 7 ]}));
    [apply reachable_new|].
  vm_compute. reflexivity.
Defined.

(** X8. In every state the game can reach, a session that is not active has
    an inactive window, and that window takes no input: whatever the player
    presses, its update only moves the openness and changes neither the
    session nor the variables. *)
Theorem reachable_resolved_ignores_input (g : Game) (i : Input) :
  reachable g ->
  choiceData_isActive g = false ->
  active (_variableChoiceWindow g) = false
  /\ Window_VariableChoice_update i g
     = on_window updateClose (on_window updateOpen g)
  /\ _variableChoiceData (Window_VariableChoice_update i g)
     = _variableChoiceData g
  /\ setValueLog (Window_VariableChoice_update i g) = setValueLog g.
Proof.
  intros Hreach Hact.
  assert (Ha : active (_variableChoiceWindow g) = false).
  { pose proof (reachable_window_follows_session g Hreach) as Hinv.
    unfold window_follows_session in Hinv.
    destruct (active (_variableChoiceWindow g)); [|done].
    rewrite Hinv in Hact; done. }
  split; [exact Ha|].
  by rewrite (Window_VariableChoice_update_inactive i g Ha).
Qed.

Lemma reachable_resolved_ignores_input_witness :
  active (_variableChoiceWindow game_show_end) = false
  /\ setValueLog (Window_VariableChoice_update OkTriggered game_show_end)
     = setValueLog game_show_end.
Proof.
  destruct (reachable_resolved_ignores_input game_show_end OkTriggered)
    as (Ha & _ & _ & Hlog).
  - apply (run_reachable schedule_show (newGame origin ∅));
      [apply reachable_new|]. vm_compute. reflexivity.
  - vm_compute. reflexivity.
  - split; [exact Ha | exact Hlog].
Defined.

(** ** Forced index on a window that is already active *)

Lemma list_updateOpen (w : Window) : _list (updateOpen w) = _list w.
Proof.
  unfold updateOpen. destruct (_opening w); [|done]. by destruct (isOpen _).
Qed.

Lemma list_updateClose (w : Window) : _list (updateClose w) = _list w.
Proof.
  unfold updateClose. destruct (_closing w); [|done]. by destruct (isClosed _).
Qed.

(** The test and the body of lines 115-120 on an active window that lists the
    choices, for a forced index that is a position of the list. *)
Lemma drain_forcedIndex (g : Game) (d : ChoiceData) (k : Z) (w1 : Window) :
  _variableChoiceData g = Some d ->
  forcedIndex d = Some k ->
  active w1 = true ->
  lists (choices d) w1 ->
  0 <= k < Z.of_nat (length (choices d)) ->
  (if active (_variableChoiceWindow (set_window w1 g)) then
     match choiceData_forcedIndex (set_window w1 g) with
     | Some selectedIndex =>
         on_data (set_forcedIndex None)
           (processOk (on_window (select selectedIndex) (set_window w1 g)))
     | None => set_window w1 g
     end
   else set_window w1 g)
  = mkGame
      (Some (mkChoiceData (choices d) (variableId d) false None
                          (distanceCondition d)))
      (if 0 <? variableId d
       then <[variableId d := k + 1]> (gameVariables g) else gameVariables g)
      (if 0 <? variableId d
       then setValueLog g ++ [(variableId d, k + 1)] else setValueLog g)
      (if 0 <? variableId d
       then timeouts g ++ [(100, variableId d)] else timeouts g)
      (close (deactivate (select k w1))) (gamePlayer g) (gameMap g).
Proof.
  intros Hd Hf Ha Hl Hk.
  destruct g as [dat vars log ts w pl mp].
  cbn [_variableChoiceData] in Hd. subst dat.
  destruct d as [cs id act fi dc].
  cbn [forcedIndex choices] in *. subst fi.
  destruct w1 as [a o op cl ix l h].
  unfold lists in Hl. cbn [active _list] in *. subst a.
  assert (Hen : isCurrentItemEnabled (mkWindow true o op cl k l h) = true)
    by (subst l; by apply isCurrentItemEnabled_choice).
  clear Hl. run_fields. cbv [processOk]. run_fields.
  rewrite Hen. cbv [callOkHandler]. run_fields.
  destruct (0 <? id); run_fields; reflexivity.
Qed.

(** X9. A forced index [k], a position of the choice list, set while the
    window is active and lists the choices: the next update of the window, in
    a frame where the player does not confirm, selects [k] and commits it.
    [k + 1] is written when the variable id is positive and its reset is
    scheduled, [forcedIndex] is [null] again, the session is no longer active
    and the window is inactive with its cursor on [k]. *)
Theorem Window_VariableChoice_update_forced
    (i : Input) (g : Game) (d : ChoiceData) (k : Z) :
  _variableChoiceData g = Some d ->
  forcedIndex d = Some k ->
  active (_variableChoiceWindow g) = true ->
  lists (choices d) (_variableChoiceWindow g) ->
  0 <= k < Z.of_nat (length (choices d)) ->
  i <> OkTriggered ->
  _variableChoiceData (Window_VariableChoice_update i g)
    = Some (mkChoiceData (choices d) (variableId d) false None
                         (distanceCondition d))
  /\ (0 < variableId d ->
        value (variableId d) (Window_VariableChoice_update i g) = k + 1
        /\ setValueLog (Window_VariableChoice_update i g)
           = setValueLog g ++ [(variableId d, k + 1)]
        /\ timeouts (Window_VariableChoice_update i g)
           = timeouts g ++ [(100, variableId d)])
  /\ (variableId d <= 0 ->
        setValueLog (Window_VariableChoice_update i g) = setValueLog g
        /\ timeouts (Window_VariableChoice_update i g) = timeouts g)
  /\ active (_variableChoiceWindow (Window_VariableChoice_update i g)) = false
  /\ _index (_variableChoiceWindow (Window_VariableChoice_update i g)) = k.
Proof.
  intros Hd Hf Ha Hl Hk Hi.
  unfold Window_VariableChoice_update, Window_Selectable_update.
  rewrite processTouch_any, (processHandling_not_ok i g Hi).
  change (on_window updateClose (on_window updateOpen g))
    with (set_window (updateClose (updateOpen (_variableChoiceWindow g))) g).
  cbv zeta.
  rewrite (drain_forcedIndex g d k
             (updateClose (updateOpen (_variableChoiceWindow g))) Hd Hf);
    [|by rewrite active_updateClose, active_updateOpen
      |unfold lists in *; by rewrite list_updateClose, list_updateOpen
      |done].
  cbn [_variableChoiceData setValueLog timeouts _variableChoiceWindow].
  split; [done|]. split; [|split; [|split]].
  - intros Hid. apply Z.ltb_lt in Hid. rewrite Hid. repeat split.
    unfold value. cbn [gameVariables]. by rewrite lookup_insert_eq.
  - intros Hid. apply Z.ltb_ge in Hid. by rewrite Hid.
  - unfold close. by destruct (isClosed _).
  - unfold close. by destruct (isClosed _).
Qed.

Lemma Window_VariableChoice_update_forced_witness :
  value 10 (Window_VariableChoice_update NoInput (ForceIndex 2 game_abc_open))
  = 3.
Proof.
  destruct (Window_VariableChoice_update_forced NoInput
              (ForceIndex 2 game_abc_open)
              (mkChoiceData ["A"; "B"; "C"] 10 true (Some 2) None) 2)
    as (_ & Hpos & _).
  - vm_compute. reflexivity.
  - reflexivity.
  - vm_compute. reflexivity.
  - unfold lists. vm_compute. reflexivity.
  - simpl. lia.
  - discriminate.
  - apply Hpos. reflexivity.
Defined.

(** X10. After the update of the window, an active window has no forced index
    pending: a forced index found on an active window is taken off the session
    in that update, whether or not it names an entry of the list. *)
Theorem Window_VariableChoice_update_clears_forced (i : Input) (g : Game) :
  active (_variableChoiceWindow (Window_VariableChoice_update i g)) = true ->
  choiceData_forcedIndex (Window_VariableChoice_update i g) = None.
Proof.
  unfold Window_VariableChoice_update.
  set (g1 := Window_Selectable_update i g).
  destruct (active (_variableChoiceWindow g1)) eqn:Ha; [|by rewrite Ha].
  destruct (choiceData_forcedIndex g1) as [k|] eqn:Hf; [|done].
  intros _. unfold choiceData_forcedIndex, on_data. simpl.
  by destruct (_variableChoiceData (processOk _)).
Qed.

Lemma Window_VariableChoice_update_clears_forced_witness :
  choiceData_forcedIndex
    (Window_VariableChoice_update NoInput (ForceIndex 7 game_abc_open)) = None.
Proof.
  apply Window_VariableChoice_update_clears_forced.
  vm_compute. reflexivity.
Defined.

(** ** The frame that opens the window *)

(** Lines 162-172 on a closed window: the variable is reset when its id is
    positive, the list is made from the choices, and the window is opening,
    active, with no entry selected. *)
Lemma activateChoiceWindow_shown (g : Game) (d : ChoiceData) :
  _variableChoiceData g = Some d ->
  forcedIndex d = None ->
  openness (_variableChoiceWindow g) = 0 ->
  activateChoiceWindow g
  = mkGame (Some d)
      (if 0 <? variableId d
       then <[variableId d := 0]> (gameVariables g) else gameVariables g)
      (if 0 <? variableId d
       then setValueLog g ++ [(variableId d, 0)] else setValueLog g)
      (timeouts g)
      (mkWindow true 0 true false (-1)
         ((fun c => mkCommand c "select" true) <$> choices d)
         (_handlers (_variableChoiceWindow g)))
      (gamePlayer g) (gameMap g).
Proof.
  intros Hd Hf Ho.
  destruct g as [dat vars log ts [a o op cl ix l h] pl mp].
  cbn [_variableChoiceData _variableChoiceWindow openness] in *. subst dat o.
  destruct d as [cs id act fi dc]. cbn [forcedIndex] in Hf. subst fi.
  set (cmds := (fun c => mkCommand c "select" true)
                 <$> choices (mkChoiceData cs id act None dc)).
  cbv [activateChoiceWindow]. run_fields.
  destruct (0 <? id); cbv [adjustWindowSize]; run_fields;
    destruct cs as [|c0 cs']; run_fields;
    rewrite ?open_closed; run_fields;
    rewrite ?makeCommandList_data; reflexivity.
Qed.

(** The same lines followed by lines 174-178 for a forced index that names no
    entry of the list: the host refuses the confirmation. *)
Lemma activateChoiceWindow_refused (g : Game) (d : ChoiceData) (k : Z) :
  _variableChoiceData g = Some d ->
  forcedIndex d = Some k ->
  openness (_variableChoiceWindow g) = 0 ->
  k < 0 \/ Z.of_nat (length (choices d)) <= k ->
  activateChoiceWindow g
  = mkGame (Some (set_forcedIndex None d))
      (if 0 <? variableId d
       then <[variableId d := 0]> (gameVariables g) else gameVariables g)
      (if 0 <? variableId d
       then setValueLog g ++ [(variableId d, 0)] else setValueLog g)
      (timeouts g)
      (mkWindow true 0 true false k
         ((fun c => mkCommand c "select" true) <$> choices d)
         (_handlers (_variableChoiceWindow g)))
      (gamePlayer g) (gameMap g).
Proof.
  intros Hd Hf Ho Hk.
  destruct g as [dat vars log ts [a o op cl ix l h] pl mp].
  cbn [_variableChoiceData _variableChoiceWindow openness] in *. subst dat o.
  destruct d as [cs id act fi dc]. cbn [forcedIndex choices] in *. subst fi.
  pose proof (isCurrentItemEnabled_out_of_range true 0 true false k cs h Hk)
    as Hen.
  set (cmds := (fun c => mkCommand c "select" true) <$> cs) in *.
  cbv [activateChoiceWindow]. run_fields.
  destruct (0 <? id); cbv [adjustWindowSize]; run_fields;
    destruct cs as [|c0 cs']; run_fields;
    rewrite ?open_closed; run_fields;
    rewrite ?makeCommandList_data; cbn [choices]; fold cmds;
    cbv [processOk]; run_fields; rewrite Hen; reflexivity.
Qed.

Lemma updateVariableChoice_ready (g : Game) (d : ChoiceData) :
  _variableChoiceData g = Some d ->
  isActive d = true ->
  readyToActivate (_variableChoiceWindow g) = true ->
  openness (_variableChoiceWindow g) = 0
  /\ updateVariableChoice g
     = if distanceCheckDue (activateChoiceWindow g)
       then checkDistanceCondition (activateChoiceWindow g)
       else Some (activateChoiceWindow g).
Proof.
  intros Hd Hact Hready. unfold updateVariableChoice.
  rewrite (choiceData_isActive_Some g d Hd), Hact.
  unfold readyToActivate in Hready. simpl. rewrite Hready.
  split; [|done].
  apply andb_true_iff in Hready as [Ho _]. by apply Z.eqb_eq.
Qed.

Lemma updateVariableChoice_window_active (g : Game) :
  active (_variableChoiceWindow g) = true ->
  updateVariableChoice g
  = if distanceCheckDue g then checkDistanceCondition g else Some g.
Proof.
  intros Ha. unfold updateVariableChoice. by rewrite Ha, andb_false_r.
Qed.

Lemma names_of_commands (cs : list string) :
  name <$> ((fun c => mkCommand c "select" true) <$> cs) = cs.
Proof. rewrite <- list_fmap_compose. by rewrite list_fmap_id. Qed.

(** X11. The frame that finds an active session with no forced index and no
    distance condition on a closed, inactive window opens it: the window
    lists the choices in their order, every entry enabled, with no entry
    selected, and is active and opening; the variable is reset to [0] when
    its id is positive.  The session is as it was, and a second call of
    [updateVariableChoice] changes nothing: the window is opened once. *)
Theorem updateVariableChoice_shows_choices (g : Game) (d : ChoiceData) :
  _variableChoiceData g = Some d ->
  isActive d = true ->
  forcedIndex d = None ->
  distanceCondition d = None ->
  readyToActivate (_variableChoiceWindow g) = true ->
  exists g1, updateVariableChoice g = Some g1
    /\ _variableChoiceData g1 = Some d
    /\ _variableChoiceWindow g1
       = mkWindow true 0 true false (-1)
           ((fun c => mkCommand c "select" true) <$> choices d)
           (_handlers (_variableChoiceWindow g))
    /\ name <$> _list (_variableChoiceWindow g1) = choices d
    /\ (0 < variableId d ->
          value (variableId d) g1 = 0
          /\ setValueLog g1 = setValueLog g ++ [(variableId d, 0)])
    /\ (variableId d <= 0 -> setValueLog g1 = setValueLog g)
    /\ timeouts g1 = timeouts g
    /\ updateVariableChoice g1 = Some g1.
Proof.
  intros Hd Hact Hf Hc Hready.
  destruct (updateVariableChoice_ready g d Hd Hact Hready) as [Ho ->].
  rewrite (activateChoiceWindow_shown g d Hd Hf Ho).
  unfold distanceCheckDue at 1. cbn [_variableChoiceData]. rewrite Hc.
  rewrite andb_false_r. cbn [andb].
  eexists. split; [reflexivity|].
  cbn [_variableChoiceData _variableChoiceWindow setValueLog timeouts _list].
  split; [done|]. split; [done|]. split; [apply names_of_commands|].
  split; [|split; [|split]].
  - intros Hid. apply Z.ltb_lt in Hid. rewrite Hid. split; [|done].
    unfold value. cbn [gameVariables]. by rewrite lookup_insert_eq.
  - intros Hid. apply Z.ltb_ge in Hid. by rewrite Hid.
  - done.
  - rewrite updateVariableChoice_window_active by reflexivity.
    unfold distanceCheckDue. cbn [_variableChoiceData].
    by rewrite Hc, andb_false_r.
Qed.

Lemma updateVariableChoice_shows_choices_witness :
  exists g1, updateVariableChoice game_abc = Some g1
    /\ name <$> _list (_variableChoiceWindow g1) = ["A"; "B"; "C"]
    /\ updateVariableChoice g1 = Some g1.
Proof.
  destruct (updateVariableChoice_shows_choices game_abc
              (mkChoiceData ["A"; "B"; "C"] 10 true None None))
    as (g1 & Hrun & _ & _ & Hnames & _ & _ & _ & Hagain).
  - reflexivity.
  - reflexivity.
  - reflexivity.
  - reflexivity.
  - reflexivity.
  - exists g1. split; [exact Hrun|]. split; [exact Hnames | exact Hagain].
Defined.

(** X12. A forced index that names no entry of the list (negative, or at
    least the number of choices), set before the window is opened on a
    session with no distance condition: the frame that opens the window
    drops the forced index and commits nothing.  The session stays active,
    the window is active with its cursor on the forced value, the variable
    reads [0] when its id is positive, and no reset is scheduled. *)
Theorem updateVariableChoice_forced_refused
    (g : Game) (d : ChoiceData) (k : Z) :
  _variableChoiceData g = Some d ->
  isActive d = true ->
  forcedIndex d = Some k ->
  distanceCondition d = None ->
  readyToActivate (_variableChoiceWindow g) = true ->
  k < 0 \/ Z.of_nat (length (choices d)) <= k ->
  exists g', updateVariableChoice g = Some g'
    /\ _variableChoiceData g' = Some (set_forcedIndex None d)
    /\ choiceData_isActive g' = true
    /\ active (_variableChoiceWindow g') = true
    /\ _index (_variableChoiceWindow g') = k
    /\ (0 < variableId d ->
          value (variableId d) g' = 0
          /\ setValueLog g' = setValueLog g ++ [(variableId d, 0)])
    /\ (variableId d <= 0 -> setValueLog g' = setValueLog g)
    /\ timeouts g' = timeouts g.
Proof.
  intros Hd Hact Hf Hc Hready Hk.
  destruct (updateVariableChoice_ready g d Hd Hact Hready) as [Ho ->].
  rewrite (activateChoiceWindow_refused g d k Hd Hf Ho Hk).
  unfold distanceCheckDue, choiceData_isActive.
  cbn [_variableChoiceData set_forcedIndex distanceCondition isActive].
  rewrite Hc, andb_false_r. cbn [andb].
  eexists. split; [reflexivity|].
  cbn [_variableChoiceData _variableChoiceWindow setValueLog timeouts
       active _index isActive].
  split; [done|]. split; [done|]. split; [done|]. split; [done|].
  split; [|split].
  - intros Hid. apply Z.ltb_lt in Hid. rewrite Hid. split; [|done].
    unfold value. cbn [gameVariables]. by rewrite lookup_insert_eq.
  - intros Hid. apply Z.ltb_ge in Hid. by rewrite Hid.
  - done.
Qed.

Lemma updateVariableChoice_forced_refused_witness :
  exists g', updateVariableChoice (game_abc_forced 7) = Some g'
    /\ choiceData_isActive g' = true
    /\ value 10 g' = 0.
Proof.
  destruct (updateVariableChoice_forced_refused (game_abc_forced 7)
              (mkChoiceData ["A"; "B"; "C"] 10 true (Some 7) None) 7)
    as (g' & Hrun & _ & Hact & _ & _ & Hpos & _).
  - reflexivity.
  - reflexivity.
  - reflexivity.
  - reflexivity.
  - reflexivity.
  - right. simpl. lia.
  - exists g'. split; [exact Hrun|]. split; [exact Hact|].
    apply Hpos. reflexivity.
Defined.

(** X13. The distance condition can end the session in the very frame that
    opens the window: with the event within reach, [updateVariableChoice]
    resets the variable, opens the window, writes the condition's [index],
    schedules the reset and closes the window again, all in one call.  The
    window ends inactive, fully closed and not opening: the player never
    sees the list. *)
Theorem updateVariableChoice_fires_before_shown
    (g : Game) (d : ChoiceData) (c : DistanceCondition) (e : Character) :
  _variableChoiceData g = Some d ->
  isActive d = true ->
  forcedIndex d = None ->
  distanceCondition d = Some c ->
  readyToActivate (_variableChoiceWindow g) = true ->
  gameMap g !! eventId c = Some e ->
  Z.abs (_x (gamePlayer g) - _x e) + Z.abs (_y (gamePlayer g) - _y e)
    <= distance c ->
  exists g', updateVariableChoice g = Some g'
    /\ _variableChoiceData g'
       = Some (mkChoiceData (choices d) (variableId d) false None None)
    /\ _variableChoiceWindow g'
       = mkWindow false 0 false false (-1)
           ((fun c => mkCommand c "select" true) <$> choices d)
           (_handlers (_variableChoiceWindow g))
    /\ (0 < variableId d ->
          value (variableId d) g' = index c
          /\ setValueLog g'
             = setValueLog g ++ [(variableId d, 0); (variableId d, index c)]
          /\ timeouts g' = timeouts g ++ [(100, variableId d)])
    /\ (variableId d <= 0 ->
          setValueLog g' = setValueLog g /\ timeouts g' = timeouts g).
Proof.
  intros Hd Hact Hf Hc Hready He Hdist.
  destruct (updateVariableChoice_ready g d Hd Hact Hready) as [Ho ->].
  rewrite (activateChoiceWindow_shown g d Hd Hf Ho).
  unfold distanceCheckDue at 1. cbn [_variableChoiceData].
  rewrite Hact, Hc, Hf. cbn [truthy negb andb].
  rewrite bool_decide_eq_true_2 by done. cbn [andb].
  erewrite checkDistanceCondition_unfold; [|reflexivity|exact Hc|exact He].
  cbn [gamePlayer]. apply Z.leb_le in Hdist. rewrite Hdist.
  destruct d as [cs id act fi dc]. cbn [isActive forcedIndex distanceCondition
    variableId choices] in *. subst act fi dc.
  destruct (0 <? id) eqn:Hid; cbv zeta; run_fields;
    rewrite close_closed; run_fields;
    (eexists; split; [reflexivity|]); run_fields;
    [apply Z.ltb_lt in Hid | apply Z.ltb_ge in Hid];
    repeat split; try lia.
  - unfold value. cbn [gameVariables]. by rewrite lookup_insert_eq.
  - by rewrite <- app_assoc.
Qed.

Lemma updateVariableChoice_fires_before_shown_witness :
  exists g', updateVariableChoice game_xy_near = Some g'
    /\ value 20 g' = 99
    /\ active (_variableChoiceWindow g') = false.
Proof.
  destruct (updateVariableChoice_fires_before_shown game_xy_near
              (mkChoiceData ["X"; "Y"] 20 true None
                 (Some (mkDistanceCondition 2 2 99)))
              (mkDistanceCondition 2 2 99) (mkCharacter 1 1))
    as (g' & Hrun & _ & Hw & Hpos & _).
  - reflexivity.
  - reflexivity.
  - reflexivity.
  - reflexivity.
  - reflexivity.
  - vm_compute. reflexivity.
  - vm_compute. discriminate.
  - exists g'. split; [exact Hrun|]. split.
    + apply Hpos. reflexivity.
    + by rewrite Hw.
Defined.

(** ** Out of reach *)

(** X14. [checkDistanceCondition] changes nothing while the event is farther
    from the player than the distance of the condition, and never fires for
    a negative distance, wherever the event is: the state is returned as it
    was, the session stays active and the condition stays in place. *)
Theorem checkDistanceCondition_out_of_reach
    (g : Game) (d : ChoiceData) (c : DistanceCondition) :
  _variableChoiceData g = Some d ->
  distanceCondition d = Some c ->
  (distance c < 0
   \/ forall e, gameMap g !! eventId c = Some e ->
        distance c
        < Z.abs (_x (gamePlayer g) - _x e) + Z.abs (_y (gamePlayer g) - _y e)) ->
  checkDistanceCondition g = Some g
  /\ (readyToActivate (_variableChoiceWindow g) = false ->
      updateVariableChoice g = Some g).
Proof.
  intros Hd Hc Hfar.
  assert (Hchk : checkDistanceCondition g = Some g).
  { unfold checkDistanceCondition. rewrite Hd; simpl. rewrite Hc; simpl.
    destruct (gameMap g !! eventId c) as [e|] eqn:He; [|done].
    assert (Hgt : (Z.abs (_x (gamePlayer g) - _x e)
                   + Z.abs (_y (gamePlayer g) - _y e) <=? distance c) = false).
    { apply Z.leb_gt. destruct Hfar as [Hneg|Hfar]; [lia|by apply Hfar]. }
    by rewrite Hgt. }
  split; [exact Hchk|].
  intros Hready. unfold updateVariableChoice.
  unfold readyToActivate in Hready.
  rewrite <- andb_assoc, Hready, andb_false_r.
  by destruct (distanceCheckDue g).
Qed.

Lemma checkDistanceCondition_out_of_reach_witness :
  checkDistanceCondition game_xy = Some game_xy.
Proof.
  apply (checkDistanceCondition_out_of_reach game_xy
           (mkChoiceData ["X"; "Y"] 20 true None
              (Some (mkDistanceCondition 2 2 99)))
           (mkDistanceCondition 2 2 99)).
  - reflexivity.
  - reflexivity.
  - right. intros e He. vm_compute in He. injection He as <-.
    vm_compute. reflexivity.
Defined.

(** ** A new session within the grace delay *)

Lemma callOkHandler_fields (g : Game) (d : ChoiceData) :
  _variableChoiceData g = Some d ->
  _variableChoiceData (callOkHandler g) = Some (set_isActive false d)
  /\ timeouts (callOkHandler g)
     = (if 0 <? variableId d
        then timeouts g ++ [(100, variableId d)] else timeouts g)
  /\ setValueLog (callOkHandler g)
     = (if 0 <? variableId d
        then setValueLog g
             ++ [(variableId d, _index (_variableChoiceWindow g) + 1)]
        else setValueLog g).
Proof.
  intros Hd. destruct g as [dat vars log ts w pl mp].
  cbn [_variableChoiceData] in Hd. subst dat.
  destruct d as [cs id act fi dc].
  cbv [callOkHandler]. run_fields.
  by destruct (0 <? id).
Qed.

(** X15. The reset scheduled by a commit is not tied to its session.  When a
    script starts a new session on the same variable right after the commit,
    the variable reads [-1]; 100 ms later the old reset runs and the variable
    reads [0] while the new session is still active and unresolved. *)
Theorem stale_reset_overwrites_sentinel
    (g : Game) (d : ChoiceData) (cs : list string)
    (cond : option DistanceCondition) :
  _variableChoiceData g = Some d ->
  0 < variableId d ->
  let g2 := setupVariableChoice cs (variableId d) cond (callOkHandler g) in
  _variableChoiceData g2 = Some (mkChoiceData cs (variableId d) true None cond)
  /\ value (variableId d) g2 = -1
  /\ choiceData_isActive (elapse 100 g2) = true
  /\ value (variableId d) (elapse 100 g2) = 0.
Proof.
  intros Hd Hid g2.
  destruct (callOkHandler_tears_down g) as [Hidle _].
  destruct (callOkHandler_fields g d Hd) as (_ & Ht & _).
  assert (Hpos : (0 <? variableId d) = true) by by apply Z.ltb_lt.
  rewrite Hpos in Ht.
  assert (Hg2 : g2 = set_data
                  (Some (mkChoiceData cs (variableId d) true None cond))
                  (setValue (variableId d) (-1) (callOkHandler g))).
  { subst g2. unfold setupVariableChoice. by rewrite Hidle, Hpos. }
  split; [by rewrite Hg2|]. split; [|split].
  - rewrite Hg2. apply (value_setValue_eq (variableId d) (-1)).
  - destruct (elapse_fields 100 g2) as (Hdat & _).
    unfold choiceData_isActive. by rewrite Hdat, Hg2.
  - apply (elapse_youngest_due 100 100 (variableId d) (timeouts g)); [|lia].
    by rewrite Hg2.
Qed.

Lemma stale_reset_overwrites_sentinel_witness :
  value 10 (setupVariableChoice ["P"; "Q"] 10 None
              (callOkHandler game_abc_pick1)) = -1
  /\ value 10 (elapse 100 (setupVariableChoice ["P"; "Q"] 10 None
                             (callOkHandler game_abc_pick1))) = 0.
Proof.
  destruct (stale_reset_overwrites_sentinel game_abc_pick1
              (mkChoiceData ["A"; "B"; "C"] 10 true None None)
              ["P"; "Q"] None)
    as (_ & Hnow & _ & Hlater).
  - reflexivity.
  - reflexivity.
  - split; [exact Hnow | exact Hlater].
Defined.



(** The player's confirmation in that frame comes first: the entry under the
    cursor is committed and the forced index stays on the ended session. *)
Lemma Scene_Map_update_player_confirms_first :
  (fun g' => (choiceData_isActive g', choiceData_forcedIndex g', value 20 g'))
    <$> Scene_Map_update OkTriggered game_xy_picked_forced
  = Some (false, Some 0, 2).
Proof. vm_compute. reflexivity. Qed.

(** X17. No run of script calls, window updates, calls of
    [updateVariableChoice] and timer callbacks fails, from any state:
    [checkDistanceCondition] reads [choiceData.distanceCondition.eventId]
    with no test of its own, and the test of line 182 is what keeps it from
    running without a session or without a condition. *)
Theorem run_never_fails (es : list Event) (g : Game) :
  exists g', run es g = Some g'.
Proof. apply run_total. Qed.
